(** * bot.py: a shallow embedding of the job-posting bot and its properties

    The development follows [src/bot.py] function by function.

    - Python [str] values are Rocq [string]s, one [ascii] per code point, so
      the model covers the code points U+0000..U+00FF; on that range
      [isspace] and [lower_char] follow CPython's tables.
    - Values decoded from JSON ([json.load], [Response.json]) are [pyval]s.
      JSON floats are outside the model.
    - The state file, the webhook and the standard output make up a [world];
      [main] threads it through a small state-and-exception monad.  The
      state file is kept as the value its text decodes to: [json.load] gives
      back what [json.dump] wrote (strings without surrogate code points,
      as all strings here are).  Whether the file can be opened for writing
      and written is the run's [disk_reply].
    - The module-level code has run: the webhook URL is set and
      [MAX_POSTS_PER_RUN] is the parsed integer. *)

From Stdlib Require Import Ascii String ZArith DecimalString Sorted.
From stdpp Require Import base list sorting gmap strings.

Set Warnings "-register-all".

Local Open Scope Z_scope.

(** ** Text primitives *)

Module Text.

(** [str.isspace] / the regex class [\s] on one code point. *)
Definition isspace (c : ascii) : bool :=
  let n := N_of_ascii c in
  (((9 <=? n) && (n <=? 13)) || ((28 <=? n) && (n <=? 32))
   || (n =? 133) || (n =? 160))%N.

(** [str.lower] on one code point: A-Z and the Latin-1 capitals, U+00D7
    (the multiplication sign) excepted.  On U+0000..U+00FF [str.lower] gives
    one code point for each code point; beyond that range it can give more
    (U+0130 gives two), so nothing here is said about the length of a
    lower-cased text. *)
Definition lower_char (c : ascii) : ascii :=
  let n := N_of_ascii c in
  if (((65 <=? n) && (n <=? 90))
      || ((192 <=? n) && (n <=? 222) && negb (n =? 215)))%N
  then ascii_of_N (n + 32) else c.

Fixpoint lower (s : string) : string :=
  match s with
  | EmptyString => EmptyString
  | String c s' => String (lower_char c) (lower s')
  end.

Fixpoint lstrip (s : string) : string :=
  match s with
  | EmptyString => EmptyString
  | String c s' => if isspace c then lstrip s' else s
  end.

Fixpoint rstrip (s : string) : string :=
  match s with
  | EmptyString => EmptyString
  | String c s' =>
      match rstrip s' with
      | EmptyString => if isspace c then EmptyString else String c EmptyString
      | r => String c r
      end
  end.

(** [s.strip()] *)
Definition strip (s : string) : string := rstrip (lstrip s).

(** [re.sub(r"\s+", " ", s)]: every maximal run of whitespace becomes one
    space.  [in_run] tells that the previous character belonged to the run
    being replaced. *)
Fixpoint sub_ws_go (in_run : bool) (s : string) : string :=
  match s with
  | EmptyString => EmptyString
  | String c s' =>
      if isspace c
      then if in_run then sub_ws_go true s'
           else String " "%char (sub_ws_go true s')
      else String c (sub_ws_go false s')
  end.

Definition sub_ws (s : string) : string := sub_ws_go false s.

(** [s or ''] for an argument that may be [None]. *)
Definition or_empty (s : option string) : string :=
  match s with
  | Some t => t
  | None => EmptyString
  end.

(** [norm], bot.py line 67. *)
Definition norm (s : option string) : string :=
  lower (sub_ws (strip (or_empty s))).

(** The words of a string, as [s.split()] gives them: the maximal runs of
    characters that are not whitespace. *)
Definition starts_word (s : string) : bool :=
  match s with
  | EmptyString => false
  | String c _ => negb (isspace c)
  end.

Definition push_char (c : ascii) (glue : bool) (ws : list string) : list string :=
  match ws with
  | w :: ws' => if glue then String c w :: ws' else String c EmptyString :: ws
  | [] => [String c EmptyString]
  end.

Fixpoint split_ws (s : string) : list string :=
  match s with
  | EmptyString => []
  | String c s' =>
      if isspace c then split_ws s'
      else push_char c (starts_word s') (split_ws s')
  end.

(** [" ".join(ws)] *)
Fixpoint join_sp (ws : list string) : string :=
  match ws with
  | [] => EmptyString
  | [w] => w
  | w :: ws' => w +:+ String " "%char (join_sp ws')
  end.

(** [k in t] for two strings: [k] occurs in [t] as a contiguous substring. *)
Fixpoint startswith (k t : string) : bool :=
  match k, t with
  | EmptyString, _ => true
  | String a k', String b t' => if ascii_dec a b then startswith k' t' else false
  | String _ _, EmptyString => false
  end.

Fixpoint contains (k t : string) : bool :=
  startswith k t ||
  match t with
  | EmptyString => false
  | String _ t' => contains k t'
  end.

(** [k] occurs in [t]: the meaning of [k in t], said without the search. *)
Definition occurs_in (k t : string) : Prop :=
  exists pre post : string, t = pre +:+ k +:+ post.

(** Two strings differ only in whitespace and letter case: the same words,
    letter case aside. *)
Definition same_words (s1 s2 : string) : Prop :=
  lower <$> split_ws s1 = lower <$> split_ws s2.

Definition starts_space (s : string) : bool :=
  match s with
  | EmptyString => false
  | String c _ => isspace c
  end.

Fixpoint no_space (s : string) : bool :=
  match s with
  | EmptyString => true
  | String c s' => negb (isspace c) && no_space s'
  end.

(** A word: not empty, no whitespace in it. *)
Definition word (w : string) : Prop := w <> EmptyString /\ no_space w = true.

End Text.


(** ** Python values decoded from JSON *)

Module Py.

Inductive pyval : Type :=
| PNone
| PBool (b : bool)
| PInt (n : Z)
| PStr (s : string)
| PList (l : list pyval)
| PDict (d : list (string * pyval)).

(** Truth value of a Python object, as [or] and [if] test it. *)
Definition truthy (v : pyval) : bool :=
  match v with
  | PNone => false
  | PBool b => b
  | PInt n => negb (n =? 0)
  | PStr s => negb (String.eqb s EmptyString)
  | PList l => match l with [] => false | _ => true end
  | PDict d => match d with [] => false | _ => true end
  end.

(** [d.get(k)]: a dict keeps one value per key; the association list is
    searched from the front. *)
Fixpoint dict_get (k : string) (d : list (string * pyval)) : option pyval :=
  match d with
  | [] => None
  | (k', v) :: d' => if String.eqb k k' then Some v else dict_get k d'
  end.

Definition str_of_Z (n : Z) : string := NilZero.string_of_int (Z.to_int n).

Definition backslash : ascii := "092"%char.
Definition dquote : ascii := "034"%char.
Definition squote : ascii := "039"%char.

Definition hex_digit (n : N) : ascii :=
  if (n <? 10)%N then ascii_of_N (48 + n) else ascii_of_N (87 + n).

(** One character of [repr(s)], with [q] the chosen quote. *)
Definition repr_char (q c : ascii) : string :=
  let n := N_of_ascii c in
  let esc (x : ascii) := String backslash (String x EmptyString) in
  if ascii_dec c q then esc c
  else if (n =? 92)%N then esc backslash
  else if (n =? 9)%N then esc "t"%char
  else if (n =? 10)%N then esc "n"%char
  else if (n =? 13)%N then esc "r"%char
  else if ((n <? 32) || ((127 <=? n) && (n <=? 160)) || (n =? 173))%N
  then String backslash (String "x"%char
         (String (hex_digit (n / 16)) (String (hex_digit (n mod 16)) EmptyString)))
  else String c EmptyString.

Fixpoint has_char (q : ascii) (s : string) : bool :=
  match s with
  | EmptyString => false
  | String c s' => if ascii_dec c q then true else has_char q s'
  end.

Fixpoint repr_chars (q : ascii) (s : string) : string :=
  match s with
  | EmptyString => EmptyString
  | String c s' => repr_char q c +:+ repr_chars q s'
  end.

(** [repr] of a [str]: single quotes, unless the text has a single quote and
    no double quote. *)
Definition repr_str (s : string) : string :=
  let q := if has_char squote s && negb (has_char dquote s)
           then dquote else squote in
  String q (repr_chars q s) +:+ String q EmptyString.

Fixpoint repr (v : pyval) : string :=
  match v with
  | PNone => "None"
  | PBool true => "True"
  | PBool false => "False"
  | PInt n => str_of_Z n
  | PStr s => repr_str s
  | PList l =>
      "[" +:+
      (fix items (l : list pyval) : string :=
         match l with
         | [] => EmptyString
         | x :: l' =>
             match l' with
             | [] => repr x
             | _ => repr x +:+ ", " +:+ items l'
             end
         end) l +:+ "]"
  | PDict d =>
      "{" +:+
      (fix items (d : list (string * pyval)) : string :=
         match d with
         | [] => EmptyString
         | (k, x) :: d' =>
             match d' with
             | [] => repr_str k +:+ ": " +:+ repr x
             | _ => repr_str k +:+ ": " +:+ repr x +:+ ", " +:+ items d'
             end
         end) d +:+ "}"
  end.

(** [str(v)] *)
Definition str (v : pyval) : string :=
  match v with
  | PStr s => s
  | _ => repr v
  end.

End Py.

Import Py.

(** ** Exceptions, the world and the monad of the script *)

Inductive exn : Type :=
| AttributeError
| OSError
| JSONDecodeError
| RequestException
| HTTPError.

Inductive result (A : Type) : Type :=
| Ok (a : A)
| Raise (e : exn).
Arguments Ok {A} a.
Arguments Raise {A} e.

(** Exit status of the interpreter: an exception that reaches the top level
    ends the process with status 1. *)
Definition exit_status {A} (r : result A) : Z :=
  match r with
  | Ok _ => 0
  | Raise _ => 1
  end.

(** What [seen_jobs.json] holds: no such file; a file that [open] or the
    decoder refuses; text that [json.load] rejects; or text that decodes to a
    value. *)
Inductive state_file : Type :=
| Missing
| Unreadable
| NotJson
| Json (v : pyval).

(** The embed posted to the webhook.  The decorations of the f-strings (the
    dash, the pin) and the timestamp are left out: the record keeps the
    computed parts. *)
Record embed : Type := Embed {
  em_employer : string;
  em_title : string;
  em_url : string;
  em_location : string;
  em_age : string
}.

Inductive event : Type :=
| EPost (e : embed)
| EWrite (keys : list string)
| EPrint (line : string).

Record world : Type := World {
  file : state_file;
  trace : list event
}.

(** What the feed answers: [requests.get], [raise_for_status] or [r.json()]
    raises, or the body decodes to a value. *)
Inductive fetch_reply : Type :=
| FetchRaises (e : exn)
| FetchJson (v : pyval).

Definition M (A : Type) : Type := world -> world * result A.

Definition ret {A} (a : A) : M A := fun w => (w, Ok a).
Definition raise {A} (e : exn) : M A := fun w => (w, Raise e).
Definition bind {A B} (c : M A) (k : A -> M B) : M B :=
  fun w =>
    match c w with
    | (w', Ok a) => k a w'
    | (w', Raise e) => (w', Raise e)
    end.
Definition lift {A} (r : result A) : M A := fun w => (w, r).

(** [try: c / except Exception: pass] *)
Definition try_pass {A} (c : M A) : M (option A) :=
  fun w =>
    match c w with
    | (w', Ok a) => (w', Ok (Some a))
    | (w', Raise _) => (w', Ok None)
    end.

Definition emit (ev : event) : M unit :=
  fun w => (World (file w) (trace w ++ [ev]), Ok tt).

Definition print (line : string) : M unit := emit (EPrint line).

Definition rbind {A B} (r : result A) (k : A -> result B) : result B :=
  match r with
  | Ok a => k a
  | Raise e => Raise e
  end.

Declare Scope run_scope.
Delimit Scope run_scope with run.
Notation "x <- c ;; k" := (bind c (fun x => k))
  (at level 100, c at next level, right associativity) : run_scope.
Notation "c ;;; k" := (bind c (fun _ => k))
  (at level 100, right associativity) : run_scope.
Notation "x <~ r ;; k" := (rbind r (fun x => k))
  (at level 100, r at next level, right associativity) : run_scope.
Local Open Scope run_scope.

(** ** The script *)

Definition INCLUDE_TITLE_KEYWORDS : list string :=
  [ "data analyst"; "business analyst"; "product analyst"; "analytics";
    "bi analyst"; "business intelligence"; "reporting analyst";
    "insights analyst"; "data science"; "data scientist"; "science" ].

Definition EXCLUDE_TITLE_KEYWORDS : list string :=
  [ "software engineer"; "software development"; "developer"; "full stack";
    "frontend"; "back end"; "backend"; "devops"; "site reliability"; "sre";
    "platform engineer"; "ml engineer"; "machine learning engineer";
    "data engineer"; "cloud engineer"; "security engineer"; "product manager";
    "program manager"; "director"; "sr "; "senior "; "principal"; "staff";
    "lead"; "manager"; "intern" ].

Definition norm := Text.norm.

(** [sorted(seen)] on a set of [str]: the elements in code-point order. *)
Definition sorted (seen : gset string) : list string :=
  merge_sort String.le (elements seen).

(** [load_seen], bot.py lines 70-80. *)
Definition os_path_exists : M bool :=
  fun w => (w, Ok (match file w with Missing => false | _ => true end)).

Definition json_load_file : M pyval :=
  fun w =>
    match file w with
    | Json v => (w, Ok v)
    | NotJson => (w, Raise JSONDecodeError)
    | Unreadable | Missing => (w, Raise OSError)
    end.

Definition load_seen : M (gset string) :=
  present <- os_path_exists ;;
  if negb present then ret ∅
  else
    r <- try_pass
           (data <- json_load_file ;;
            match data with
            | PList l => ret (Some (list_to_set (str <$> l) : gset string))
            | _ => ret None
            end) ;;
    match r with
    | Some (Some s) => ret s
    | _ => ret ∅
    end.

(** What the file system answers when the state file is opened with mode
    "w" and written: the write completes; [open] raises (a directory, no
    permission); or [open] succeeds, which truncates the file, and the write
    or the close raises (a full disk).  It does not follow from what the
    file holds: a state file that is a directory is [Unreadable] and
    answers [OpenFails], a file of bytes that are not UTF-8 is [Unreadable]
    and can be written. *)
Inductive disk_reply : Type :=
| Writes
| OpenFails
| WriteFails.

(** [save_seen], bot.py lines 82-84.  There is no [try]: an OSError of
    [open] or of the write leaves [save_seen].  A completed write leaves the
    dumped list and nothing else in the file, and is the event [EWrite]; a
    write that fails after [open] leaves the truncated file, an empty or cut
    text that is no JSON. *)
Definition save_seen (disk : disk_reply) (seen : gset string) : M unit :=
  fun w =>
    match disk with
    | Writes =>
        (World (Json (PList (PStr <$> sorted seen)))
               (trace w ++ [EWrite (sorted seen)]), Ok tt)
    | OpenFails => (w, Raise OSError)
    | WriteFails => (World NotJson (trace w), Raise OSError)
    end.

(** [is_analyst_role], bot.py lines 94-105. *)
Definition is_analyst_role (title : string) : bool :=
  let t := norm (Some title) in
  if negb (existsb (fun k => Text.contains k t) INCLUDE_TITLE_KEYWORDS) then false
  else if existsb (fun k => Text.contains k t) EXCLUDE_TITLE_KEYWORDS then false
  else true.

(** [job.get(k, default)]: only a dict has the method. *)
Definition get (job : pyval) (k : string) (default : pyval) : result pyval :=
  match job with
  | PDict d => Ok (from_option id default (dict_get k d))
  | _ => Raise AttributeError
  end.

Definition SEP : string := "||".

Definition ID_FIELDS : list string :=
  [ "employer_name"; "job_title"; "job_city"; "job_state";
    "job_apply_link"; "job_posted_at" ].

(** [stable_job_id], bot.py lines 107-116. *)
Definition stable_job_id (job : pyval) : result string :=
  employer <~ get job "employer_name" (PStr EmptyString) ;;
  title <~ get job "job_title" (PStr EmptyString) ;;
  city <~ get job "job_city" (PStr EmptyString) ;;
  state <~ get job "job_state" (PStr EmptyString) ;;
  link <~ get job "job_apply_link" (PStr EmptyString) ;;
  posted <~ get job "job_posted_at" (PStr EmptyString) ;;
  Ok (norm (Some (str employer)) +:+ SEP +:+ norm (Some (str title)) +:+ SEP +:+
      norm (Some (str city)) +:+ SEP +:+ norm (Some (str state)) +:+ SEP +:+
      norm (Some (str link)) +:+ SEP +:+ norm (Some (str posted))).

(** [(job.get(k) or default).strip()]: a value that is true and not a [str]
    has no [strip]. *)
Definition text_or (job : pyval) (k default : string) : result string :=
  v <~ get job k PNone ;;
  match (if truthy v then v else PStr default) with
  | PStr s => Ok (Text.strip s)
  | _ => Raise AttributeError
  end.

Definition nonempty (s : string) : bool :=
  match s with
  | EmptyString => false
  | _ => true
  end.

(** [format_location], bot.py lines 118-127. *)
Definition format_location (job : pyval) : result string :=
  city <~ text_or job "job_city" EmptyString ;;
  state <~ text_or job "job_state" EmptyString ;;
  if nonempty city && nonempty state then Ok (city +:+ ", " +:+ state)
  else if nonempty city then Ok city
  else if nonempty state then Ok state
  else Ok "Unknown".

Definition DEFAULT_URL : string :=
  "https://github.com/zapplyjobs/New-Grad-Data-Science-Jobs-2026".

Definition build_embed (job : pyval) : result embed :=
  employer <~ text_or job "employer_name" "Unknown Company" ;;
  title <~ text_or job "job_title" "Analyst Role" ;;
  loc <~ format_location job ;;
  age <~ text_or job "job_posted_at" "N/A" ;;
  url <~ text_or job "job_apply_link" EmptyString ;;
  Ok (Embed employer title (if nonempty url then url else DEFAULT_URL) loc age).

Fixpoint posts_of (t : list event) : list embed :=
  match t with
  | [] => []
  | EPost e :: t' => e :: posts_of t'
  | _ :: t' => posts_of t'
  end.

Fixpoint writes_of (t : list event) : list (list string) :=
  match t with
  | [] => []
  | EWrite ks :: t' => ks :: writes_of t'
  | _ :: t' => writes_of t'
  end.

(** [new_jobs[:n]] *)
Definition slice_to {A} (n : Z) (l : list A) : list A :=
  if 0 <=? n then take (Z.to_nat n) l
  else take (length l - Z.to_nat (- n))%nat l.

(** [data if isinstance(data, list) else []] *)
Definition list_or_empty (data : pyval) : list pyval :=
  match data with
  | PList l => l
  | _ => []
  end.

Section Run.

(** The environment of one run: the parsed [MAX_POSTS_PER_RUN], the answer of
    the feed, the answer of the webhook to the n-th POST of the run, and the
    answer of the file system to the write of the state file. *)
Context (MAX_POSTS_PER_RUN : Z) (feed : fetch_reply) (webhook : nat -> result unit)
        (disk : disk_reply).

(** [fetch_jobs], bot.py lines 86-92. *)
Definition fetch_jobs : M (list pyval) :=
  match feed with
  | FetchRaises e => raise e
  | FetchJson data => ret (list_or_empty data)
  end.

(** [requests.post(...)] followed by [resp.raise_for_status()]. *)
Definition requests_post (e : embed) : M unit :=
  fun w =>
    (World (file w) (trace w ++ [EPost e]),
     webhook (length (posts_of (trace w)))).

(** [post_embed], bot.py lines 129-150. *)
Definition post_embed (job : pyval) : M unit :=
  e <- lift (build_embed job) ;;
  requests_post e.

(** The loop of lines 160-163. *)
Fixpoint collect_new_jobs (analyst_jobs : list pyval) : result (list (string * pyval)) :=
  match analyst_jobs with
  | [] => Ok []
  | j :: rest =>
      jid <~ stable_job_id j ;;
      tl <~ collect_new_jobs rest ;;
      Ok ((jid, j) :: tl)
  end.

(** The loop of lines 171-174. *)
Fixpoint post_loop (selected : list (string * pyval)) (seen : gset string) (posted : nat)
  : M (gset string * nat) :=
  match selected with
  | [] => ret (seen, posted)
  | (jid, job) :: rest =>
      post_embed job ;;;
      post_loop rest ({[jid]} ∪ seen) (S posted)
  end.

(** [main], bot.py lines 152-177. *)
Definition main : M unit :=
  seen <- load_seen ;;
  jobs <- fetch_jobs ;;
  let analyst_jobs := jobs in
  new_jobs <- lift (collect_new_jobs analyst_jobs) ;;
  match new_jobs with
  | [] => print "No new analyst jobs found."
  | _ =>
      r <- post_loop (slice_to MAX_POSTS_PER_RUN new_jobs) seen 0 ;;
      save_seen disk r.1 ;;;
      print ("Posted " +:+ str_of_Z (Z.of_nat r.2) +:+ " new analyst job(s).")
  end.

End Run.

(** The text [stable_job_id] normalizes for key [k]: [str(job.get(k, ''))]. *)
Definition field_text (d : list (string * pyval)) (k : string) : string :=
  str (from_option id (PStr EmptyString) (dict_get k d)).

(** Two listings that differ in letter case and whitespace only. *)
Definition listing_shouting : list (string * pyval) :=
  [ ("employer_name", PStr "  ACME   Corp"); ("job_title", PStr "Data ANALYST ");
    ("job_city", PStr "New  York"); ("job_state", PStr "NY");
    ("job_apply_link", PStr "HTTPS://acme.example/jobs/1"); ("job_posted_at", PStr "2 Days ago") ].

Definition listing_quiet : list (string * pyval) :=
  [ ("job_title", PStr "data analyst"); ("employer_name", PStr "acme corp");
    ("job_state", PStr " ny "); ("job_city", PStr "new york");
    ("job_posted_at", PStr "2 days  ago"); ("job_apply_link", PStr "https://acme.example/jobs/1") ].

(** A state file holding the JSON array [1, 2]. *)
Definition world_int_array : world := World (Json (PList [PInt 1; PInt 2])) [].

(** The state file holds a sequence of strings, the structure [save_seen]
    writes. *)
Definition holds_strings (f : state_file) : Prop :=
  exists l : list string, f = Json (PList (PStr <$> l)).

(** The embeds [post_embed] sends for [jobs], when it is called on each in
    turn: a job whose embed cannot be built sends nothing. *)
Definition attempts (jobs : list pyval) : list embed :=
  flat_map (fun j => match build_embed j with Ok em => [em] | Raise _ => [] end) jobs.

(** The listings of the spec's scenarios. *)
Definition job_unseen : pyval :=
  PDict [ ("employer_name", PStr "Acme"); ("job_title", PStr "Data Analyst");
          ("job_apply_link", PStr "https://acme.example/jobs/1") ].

Definition job_seen : pyval :=
  PDict [ ("employer_name", PStr "Beta"); ("job_title", PStr "Business Analyst");
          ("job_apply_link", PStr "https://beta.example/jobs/2") ].

Definition job_other : pyval :=
  PDict [ ("employer_name", PStr "Gamma"); ("job_title", PStr "Software Engineer");
          ("job_apply_link", PStr "https://gamma.example/jobs/3") ].

Definition key_unseen : string := "acme||data analyst||||||https://acme.example/jobs/1||".
Definition key_seen : string := "beta||business analyst||||||https://beta.example/jobs/2||".
Definition key_other : string := "gamma||software engineer||||||https://gamma.example/jobs/3||".

Definition embed_unseen : embed :=
  Embed "Acme" "Data Analyst" "https://acme.example/jobs/1" "Unknown" "N/A".
Definition embed_seen : embed :=
  Embed "Beta" "Business Analyst" "https://beta.example/jobs/2" "Unknown" "N/A".
Definition embed_other : embed :=
  Embed "Gamma" "Software Engineer" "https://gamma.example/jobs/3" "Unknown" "N/A".

(** A state file that records [job_seen] as delivered, and no events yet. *)
Definition world_one_seen : world := World (Json (PList [PStr key_seen])) [].

(** No state file, no events yet. *)
Definition world_fresh : world := World Missing [].

Definition webhook_up : nat -> result unit := fun _ => Ok tt.
Definition webhook_down : nat -> result unit := fun _ => Raise HTTPError.

(** Every character of [s] is whitespace ([s.strip()] is empty). *)
Fixpoint all_space (s : string) : bool :=
  match s with
  | EmptyString => true
  | String c s' => Text.isspace c && all_space s'
  end.

(** The separator character of the Identity Key. *)
Definition pipe : ascii := "|"%char.

(** The keys none of whose normalized fields holds the separator character. *)
Definition pipe_free (d : list (string * pyval)) : Prop :=
  forall k, In k ID_FIELDS -> has_char pipe (norm (Some (field_text d k))) = false.

(** Two listings with distinct normalized fields and one Identity Key. *)
Definition listing_pipe_left : list (string * pyval) :=
  [ ("employer_name", PStr "acme||") ].
Definition listing_pipe_right : list (string * pyval) :=
  [ ("employer_name", PStr "acme"); ("job_title", PStr "||") ].

Definition is_str (v : pyval) : bool :=
  match v with
  | PStr _ => true
  | _ => false
  end.

Definition is_dict (v : pyval) : bool :=
  match v with
  | PDict _ => true
  | _ => false
  end.

(** The value under [k] is true and is not a [str]: it has no [strip]. *)
Definition unusable (d : list (string * pyval)) (k : string) : bool :=
  match dict_get k d with
  | Some v => truthy v && negb (is_str v)
  | None => false
  end.

(** The text under [k] is a string that is not empty and is all whitespace. *)
Definition blank_text (d : list (string * pyval)) (k : string) : Prop :=
  exists s, dict_get k d = Some (PStr s) /\ s <> EmptyString /\ all_space s = true.

(** A listing whose city is a number. *)
Definition job_numeric_city : pyval :=
  PDict [ ("employer_name", PStr "Acme"); ("job_title", PStr "Data Analyst");
          ("job_city", PInt 5) ].

(** A listing whose employer is a string of spaces. *)
Definition listing_blank_employer : list (string * pyval) :=
  [ ("employer_name", PStr "   "); ("job_title", PStr "Data Analyst") ].

(** The text [(job.get(k) or default)] when it is a [str]: the stored string
    if it is not empty, the default otherwise. *)
Definition field_or (d : list (string * pyval)) (k default : string) : string :=
  match dict_get k d with
  | Some (PStr s) => if nonempty s then s else default
  | _ => default
  end.

(** The four cases of [format_location] on the stripped city and state. *)
Definition location_text (city state : string) : string :=
  if nonempty city && nonempty state then city +:+ ", " +:+ state
  else if nonempty city then city
  else if nonempty state then state
  else "Unknown".

(** The embed [post_embed] builds from a dict whose fields all have [strip]. *)
Definition embed_of (d : list (string * pyval)) : embed :=
  Embed (Text.strip (field_or d "employer_name" "Unknown Company"))
        (Text.strip (field_or d "job_title" "Analyst Role"))
        (if nonempty (Text.strip (field_or d "job_apply_link" EmptyString))
         then Text.strip (field_or d "job_apply_link" EmptyString) else DEFAULT_URL)
        (location_text (Text.strip (field_or d "job_city" EmptyString))
                       (Text.strip (field_or d "job_state" EmptyString)))
        (Text.strip (field_or d "job_posted_at" "N/A")).

(** What [build_embed] returns for [listing_blank_employer]. *)
Definition embed_blank_employer : embed :=
  Embed EmptyString "Data Analyst" DEFAULT_URL "Unknown" "N/A".

(** The listings [fetch_jobs] returns, none when it raises. *)
Definition fetched (feed : fetch_reply) : list pyval :=
  match feed with
  | FetchJson data => list_or_empty data
  | FetchRaises _ => []
  end.

(** [len(l[:n])] *)
Definition slice_len (n : Z) (len : nat) : nat :=
  if 0 <=? n then Nat.min (Z.to_nat n) len else (len - Z.to_nat (- n))%nat.

(** The last line [main] prints after [posted] deliveries. *)
Definition posted_line (posted : nat) : string :=
  "Posted " +:+ str_of_Z (Z.of_nat posted) +:+ " new analyst job(s).".

Section Script.

(** [int(s)] on the text of [MAX_POSTS_PER_RUN]: [None] when it raises
    ValueError. *)
Context (py_int : string -> option Z).

(** The module as a script, bot.py lines 14-19 and 179-180: the exit status
    with the world it leaves.  A traceback goes to the standard error and
    is no event here. *)
Definition script (env_webhook env_max : option string)
    (feed : fetch_reply) (webhook : nat -> result unit) (disk : disk_reply)
  : world -> world * Z :=
  fun w =>
    let DISCORD_WEBHOOK := Text.strip (from_option id EmptyString env_webhook) in
    if negb (nonempty DISCORD_WEBHOOK)
    then (World (file w) (trace w ++ [EPrint "Missing DISCORD_WEBHOOK_URL env var."]), 1)
    else
      match py_int (from_option id "1" env_max) with
      | None => (w, 1)
      | Some MAX_POSTS_PER_RUN =>
          let r := main MAX_POSTS_PER_RUN feed webhook disk w in
          (r.1, exit_status r.2)
      end.

End Script.

(** A feed whose second listing is a string. *)
Definition feed_with_string : pyval := PList [job_unseen; PStr "oops"].

(** A listing whose title is null, and the same listing without a title. *)
Definition listing_null_title : list (string * pyval) :=
  [ ("employer_name", PStr "Acme"); ("job_title", PNone) ].
Definition listing_no_title : list (string * pyval) :=
  [ ("employer_name", PStr "Acme") ].

(** * Properties *)

Example str_ex1 : str (PInt 12) = "12" /\ str (PInt (-5)) = "-5" /\ str (PInt 0) = "0".
Proof. vm_compute. auto. Qed.
Example str_ex2 : str (PList [PInt 1; PStr "a b"; PNone; PDict [("k", PBool true)]]) = "[1, 'a b', None, {'k': True}]".
Proof. vm_compute. reflexivity. Qed.

(** ** Facts about the text primitives *)

Module TextFacts.
Import Text.

Lemma app_cons (a : ascii) (s t : string) : String a s +:+ t = String a (s +:+ t).
Proof. reflexivity. Qed.

Lemma app_empty_l (t : string) : EmptyString +:+ t = t.
Proof. reflexivity. Qed.

Lemma lower_cons c s : lower (String c s) = String (lower_char c) (lower s).
Proof. reflexivity. Qed.

Lemma lower_char_idem c : lower_char (lower_char c) = lower_char c.
Proof. destruct c as [[] [] [] [] [] [] [] []]; reflexivity. Qed.

Lemma isspace_lower_char c : isspace (lower_char c) = isspace c.
Proof. destruct c as [[] [] [] [] [] [] [] []]; reflexivity. Qed.

Lemma lower_idem s : lower (lower s) = lower s.
Proof. induction s as [|c s IH]; simpl; [done|]. by rewrite lower_char_idem, IH. Qed.

Lemma lower_app s t : lower (s +:+ t) = lower s +:+ lower t.
Proof. induction s as [|c s IH]; [done|]. rewrite !app_cons. simpl. by rewrite IH, app_cons. Qed.

Lemma push_char_ne c g ws : push_char c g ws <> [].
Proof. destruct ws, g; done. Qed.

Lemma rstrip_empty_iff s : rstrip s = EmptyString <-> split_ws s = [].
Proof.
  induction s as [|c s IH]; simpl; [done|].
  destruct (isspace c) eqn:Hc.
  - destruct (rstrip s); [tauto|]. split; [done|]. intros H. apply IH in H. done.
  - split.
    + by destruct (rstrip s).
    + intros H. by apply push_char_ne in H.
Qed.

Lemma rstrip_cons_word c s : isspace c = false -> rstrip (String c s) = String c (rstrip s).
Proof. intros Hc. simpl. rewrite Hc. by destruct (rstrip s). Qed.

Lemma rstrip_head s : rstrip s <> EmptyString -> starts_space (rstrip s) = starts_space s.
Proof.
  destruct s as [|c s]; simpl; [done|].
  destruct (rstrip s); [|done].
  destruct (isspace c) eqn:Hc; simpl; [congruence|]. by rewrite Hc.
Qed.

Lemma sub_ws_go_false t :
  sub_ws_go false t =
  if starts_space t then String " "%char (sub_ws_go true t) else sub_ws_go true t.
Proof. destruct t as [|c t]; simpl; [done|]. by destruct (isspace c). Qed.

Lemma join_sp_cons_char c w ws :
  join_sp (String c w :: ws) = String c (join_sp (w :: ws)).
Proof. by destruct ws. Qed.

Lemma join_sp_cons w v ws :
  join_sp (w :: v :: ws) = w +:+ String " "%char (join_sp (v :: ws)).
Proof. done. Qed.

Lemma starts_word_space s : s <> EmptyString -> starts_word s = negb (starts_space s).
Proof. by destruct s. Qed.

Lemma split_ws_empty_string : forall s, split_ws s <> [] -> s <> EmptyString.
Proof. by intros [|]. Qed.

(** The heart of [norm]: replacing the runs of a right-stripped text, the
    leading run dropped, joins the words with single spaces. *)
Lemma sub_ws_rstrip s : sub_ws_go true (rstrip s) = join_sp (split_ws s).
Proof.
  induction s as [|c s IH]; [done|].
  destruct (isspace c) eqn:Hc.
  - simpl. rewrite Hc. destruct (rstrip s) eqn:Hr.
    + apply rstrip_empty_iff in Hr. by rewrite Hr.
    + rewrite <- IH. simpl. by rewrite Hc.
  - rewrite rstrip_cons_word by done. simpl. rewrite Hc.
    rewrite sub_ws_go_false, IH.
    destruct (split_ws s) as [|w ws] eqn:Hs.
    + apply rstrip_empty_iff in Hs. by rewrite Hs.
    + assert (rstrip s <> EmptyString) as Hne.
      { intros H. apply rstrip_empty_iff in H. congruence. }
      rewrite (rstrip_head _ Hne).
      rewrite starts_word_space by (apply split_ws_empty_string; congruence).
      destruct (starts_space s); cbn [negb push_char].
      * by rewrite join_sp_cons.
      * by rewrite join_sp_cons_char.
Qed.

Lemma lstrip_head s : starts_space (lstrip s) = false.
Proof. induction s as [|c s IH]; simpl; [done|]. destruct (isspace c) eqn:Hc; [done|]. simpl. done. Qed.

Lemma split_ws_lstrip s : split_ws (lstrip s) = split_ws s.
Proof. induction s as [|c s IH]; simpl; [done|]. destruct (isspace c) eqn:Hc; [done|]. simpl. by rewrite Hc. Qed.

Lemma sub_ws_strip s : sub_ws (strip s) = join_sp (split_ws s).
Proof.
  unfold sub_ws, strip. rewrite sub_ws_go_false, sub_ws_rstrip, split_ws_lstrip.
  destruct (rstrip (lstrip s)) eqn:Hr.
  - apply rstrip_empty_iff in Hr. rewrite split_ws_lstrip in Hr. by rewrite Hr.
  - rewrite <- Hr, rstrip_head, lstrip_head; [done|]. by rewrite Hr.
Qed.

(** [norm] lower-cases the words of its argument and joins them with single
    spaces. *)
Lemma norm_words s : norm (Some s) = lower (join_sp (split_ws s)).
Proof. unfold norm. simpl. by rewrite sub_ws_strip. Qed.

Lemma lower_join_sp ws : lower (join_sp ws) = join_sp (lower <$> ws).
Proof.
  induction ws as [|w ws IH]; [done|].
  destruct ws as [|v ws]; [done|].
  rewrite join_sp_cons, lower_app, lower_cons, IH. done.
Qed.

Lemma starts_word_lower s : starts_word (lower s) = starts_word s.
Proof. destruct s; simpl; [done|]. by rewrite isspace_lower_char. Qed.

Lemma push_char_lower c g ws :
  lower <$> push_char c g ws = push_char (lower_char c) g (lower <$> ws).
Proof. by destruct ws, g. Qed.

Lemma split_ws_lower s : split_ws (lower s) = lower <$> split_ws s.
Proof.
  induction s as [|c s IH]; simpl; [done|].
  rewrite isspace_lower_char. destruct (isspace c); [done|].
  by rewrite starts_word_lower, IH, push_char_lower.
Qed.

Lemma split_ws_word_sep w rest :
  word w -> split_ws (w +:+ String " "%char rest) = w :: split_ws rest.
Proof.
  intros [Hne Hw]. induction w as [|c w IH]; [done|].
  simpl in Hw. apply andb_prop in Hw as [Hc Hw]. apply negb_true_iff in Hc.
  rewrite app_cons. simpl. rewrite Hc.
  destruct w as [|d w].
  - rewrite app_empty_l. simpl. by destruct (split_ws rest).
  - rewrite IH by done. rewrite app_cons. simpl.
    simpl in Hw. apply andb_prop in Hw as [Hd _]. by rewrite Hd.
Qed.

Lemma split_ws_word w : word w -> split_ws w = [w].
Proof.
  intros [Hne Hw]. induction w as [|c w IH]; [done|].
  simpl in Hw. apply andb_prop in Hw as [Hc Hw]. apply negb_true_iff in Hc.
  simpl. rewrite Hc. destruct w as [|d w]; [done|].
  rewrite IH by done. simpl. simpl in Hw. apply andb_prop in Hw as [Hd _]. by rewrite Hd.
Qed.

Lemma split_ws_join_sp ws : Forall word ws -> split_ws (join_sp ws) = ws.
Proof.
  induction 1 as [|w ws Hw Hws IH]; [done|].
  destruct ws as [|v ws]; [by apply split_ws_word|].
  rewrite join_sp_cons, split_ws_word_sep by done. by rewrite IH.
Qed.

Lemma push_char_word c g ws :
  isspace c = false -> Forall word ws -> Forall word (push_char c g ws).
Proof.
  intros Hc Hws. destruct ws as [|w ws]; simpl.
  - repeat constructor; [done|]. simpl. by rewrite Hc.
  - destruct g.
    + inversion Hws as [|? ? [? Hw] ?]; subst. constructor; [|done].
      split; [done|]. simpl. by rewrite Hc, Hw.
    + constructor; [|done]. split; [done|]. simpl. by rewrite Hc.
Qed.

Lemma split_ws_words s : Forall word (split_ws s).
Proof.
  induction s as [|c s IH]; simpl; [constructor|].
  destruct (isspace c) eqn:Hc; [done|]. by apply push_char_word.
Qed.

Lemma norm_idem s : norm (Some (norm (Some s))) = norm (Some s).
Proof.
  rewrite !norm_words, split_ws_lower, split_ws_join_sp by apply split_ws_words.
  by rewrite <- lower_join_sp, lower_idem.
Qed.

(** Texts with the same words, letter case aside, have the same normal form,
    and conversely. *)
Lemma same_words_norm s1 s2 : same_words s1 s2 <-> norm (Some s1) = norm (Some s2).
Proof.
  unfold same_words. rewrite !norm_words, !lower_join_sp. split.
  - by intros ->.
  - intros H. apply (f_equal split_ws) in H.
    rewrite !split_ws_join_sp in H; [done|..].
    all: rewrite <- split_ws_lower; apply split_ws_words.
Qed.

End TextFacts.

(** ** The Normalizer, the Classifier and the Identity Builder *)

Module TitleFacts.
Import Text TextFacts.

Lemma startswith_spec k t : startswith k t = true <-> exists post, t = k +:+ post.
Proof.
  revert t. induction k as [|a k IH]; intros t; simpl.
  - split; [|done]. intros _. by exists t.
  - destruct t as [|b t].
    + split; [done|]. intros [post H]. by rewrite app_cons in H.
    + destruct (ascii_dec a b) as [->|Hne].
      * rewrite IH. split; intros [post H]; exists post.
        -- by rewrite app_cons, H.
        -- rewrite app_cons in H. by injection H.
      * split; [done|]. intros [post H]. rewrite app_cons in H. by injection H.
Qed.

Lemma contains_spec k t : contains k t = true <-> occurs_in k t.
Proof.
  unfold occurs_in. split.
  - induction t as [|c t IH]; simpl.
    + rewrite orb_false_r. intros [post H]%startswith_spec. by exists EmptyString, post.
    + intros [[post H]%startswith_spec | H]%orb_prop.
      * by exists EmptyString, post.
      * destruct (IH H) as (pre & post & ->). by exists (String c pre), post.
  - intros (pre & post & ->). induction pre as [|c pre IH].
    + rewrite app_empty_l.
      assert (startswith k (k +:+ post) = true) as H by (apply startswith_spec; eauto).
      destruct (k +:+ post); simpl; by rewrite H.
    + rewrite app_cons. simpl. rewrite IH. apply orb_true_r.
Qed.

Lemma any_contains ks t :
  existsb (fun k => contains k t) ks = true <-> exists k, In k ks /\ occurs_in k t.
Proof.
  rewrite existsb_exists. split; intros (k & Hk & H); exists k; split; try done.
  all: by apply contains_spec.
Qed.

End TitleFacts.

(** C9. The Normalizer [norm] is a total function that is idempotent, sends
    an absent argument to the empty string and sends ["  A   B "] to ["a b"];
    its value is the words of the argument in lower case, joined by single
    spaces: outer whitespace trimmed, inner runs collapsed. *)
Theorem norm_idempotent :
  (forall s : option string, norm (Some (norm s)) = norm s)
  /\ norm None = EmptyString
  /\ norm (Some "  A   B ") = "a b"
  /\ (forall s : string, norm (Some s) = Text.lower (Text.join_sp (Text.split_ws s))).
Proof.
  split; [|split; [done|split; [done|]]].
  - intros [s|]; [apply TextFacts.norm_idem | done].
  - apply TextFacts.norm_words.
Qed.

(** C5. The Classifier [is_analyst_role] accepts a title exactly when the
    normalized title contains some include keyword and no exclude keyword.
    "Senior Data Scientist" is rejected although it has an include keyword,
    "Data Analyst" is accepted, "Software Engineer" has no include keyword
    and is rejected. *)
Theorem is_analyst_role_iff :
  (forall title : string,
      is_analyst_role title = true <->
      (exists k, In k INCLUDE_TITLE_KEYWORDS /\ Text.occurs_in k (norm (Some title)))
      /\ ~ (exists k, In k EXCLUDE_TITLE_KEYWORDS /\ Text.occurs_in k (norm (Some title))))
  /\ (is_analyst_role "Senior Data Scientist" = false
      /\ Text.contains "data scientist" (norm (Some "Senior Data Scientist")) = true
      /\ Text.contains "senior " (norm (Some "Senior Data Scientist")) = true)
  /\ is_analyst_role "Data Analyst" = true
  /\ (is_analyst_role "Software Engineer" = false
      /\ existsb (fun k => Text.contains k (norm (Some "Software Engineer")))
           INCLUDE_TITLE_KEYWORDS = false).
Proof.
  split; [|by vm_compute].
  intros title. unfold is_analyst_role.
  rewrite <- !TitleFacts.any_contains.
  set (f := fun k : string => Text.contains k (norm (Some title))).
  destruct (existsb f INCLUDE_TITLE_KEYWORDS); cbn [negb].
  - destruct (existsb f EXCLUDE_TITLE_KEYWORDS); split; try done.
    intros [_ Hn]. by destruct Hn.
  - split; [done|]. by intros [? _].
Qed.

(** C8, as the code has it. [stable_job_id] normalizes, for each of the six
    keys, the text [str(job.get(k, ''))].  Two listings whose six such texts
    differ only in whitespace and letter case (the same words, case aside; by
    [TextFacts.same_words_norm] this says the texts are equal once
    normalized) have the same Identity Key, and [stable_job_id] returns it
    without raising. *)
Theorem stable_job_id_same_words (d1 d2 : list (string * pyval)) :
  (forall k, In k ID_FIELDS -> Text.same_words (field_text d1 k) (field_text d2 k)) ->
  exists key, stable_job_id (PDict d1) = Ok key /\ stable_job_id (PDict d2) = Ok key.
Proof.
  intros H.
  assert (forall k, In k ID_FIELDS ->
            norm (Some (field_text d1 k)) = norm (Some (field_text d2 k))) as Hn.
  { intros k Hk. by apply TextFacts.same_words_norm, H. }
  unfold stable_job_id, get. cbn [rbind]. eexists. split; [reflexivity|].
  unfold field_text in Hn.
  rewrite !Hn by (simpl; tauto). done.
Qed.

(** C8 at two listings that differ in letter case, in whitespace and in the
    order of their keys. *)
Lemma stable_job_id_same_words_witness :
  exists key, stable_job_id (PDict listing_shouting) = Ok key
              /\ stable_job_id (PDict listing_quiet) = Ok key.
Proof.
  apply (stable_job_id_same_words listing_shouting listing_quiet).
  intros k Hk. simpl in Hk.
  repeat (destruct Hk as [<-|Hk]; [vm_compute; reflexivity|]).
  destruct Hk.
Defined.

(** C8 as stated fails: a listing whose title is null and the same listing
    with no title agree on the other five keys, and their titles are equal
    once normalized, [norm] taking a null to the empty string as it takes
    the empty string of an absent field; and yet they have not the same
    key: [str] turns the null into the text "None" before [norm] sees it. *)
Lemma stable_job_id_null_field_differs :
  (dict_get "job_title" listing_null_title = Some PNone
   /\ dict_get "job_title" listing_no_title = None
   /\ norm None = norm (Some EmptyString))
  /\ (forall k, In k ID_FIELDS -> k <> "job_title" ->
        dict_get k listing_null_title = dict_get k listing_no_title)
  /\ stable_job_id (PDict listing_null_title) = Ok "acme||none||||||||"
  /\ stable_job_id (PDict listing_no_title) = Ok "acme||||||||||"
  /\ stable_job_id (PDict listing_null_title) <> stable_job_id (PDict listing_no_title).
Proof.
  split; [done|]. split; [|by vm_compute].
  intros k Hk Hne. simpl in Hk.
  repeat (destruct Hk as [<-|Hk]; [done|]). destruct Hk.
Qed.

(** ** The Seen-Set Store *)

Module StoreFacts.

(** [load_seen] leaves the world alone and always returns: the strings of the
    elements when the file holds an array, the empty set otherwise. *)
Lemma load_seen_total w :
  load_seen w =
  (w, Ok (match file w with
          | Json (PList l) => list_to_set (str <$> l)
          | _ => ∅
          end)).
Proof. destruct w as [[| | |[]] tr]; reflexivity. Qed.

Lemma Ok_inj {A} (a b : A) : Ok a = Ok b -> a = b.
Proof.
  intros H.
  exact (f_equal (fun r => match r with Ok x => x | Raise _ => a end) H).
Qed.

Lemma str_PStr (l : list string) : str <$> (PStr <$> l) = l.
Proof. induction l as [|x l IH]; [done|]. rewrite !fmap_cons. by f_equal. Qed.

Lemma sorted_perm (seen : gset string) : sorted seen ≡ₚ elements seen.
Proof. apply merge_sort_Permutation. Qed.

Lemma list_to_set_sorted (seen : gset string) : list_to_set (sorted seen) = seen.
Proof. rewrite sorted_perm. apply list_to_set_elements_L. Qed.


End StoreFacts.



(** C7, as the code has it. [load_seen] never raises and leaves the world
    as it was: a missing file, a file that cannot be read, text that is not
    JSON and JSON that is not an array give the empty set; an array is always
    accepted, with the strings of its elements as the set. *)
Theorem load_seen_never_raises :
  (forall w, exists seen, load_seen w = (w, Ok seen))
  /\ (forall tr, load_seen (World Missing tr) = (World Missing tr, Ok ∅))
  /\ (forall tr, load_seen (World Unreadable tr) = (World Unreadable tr, Ok ∅))
  /\ (forall tr, load_seen (World NotJson tr) = (World NotJson tr, Ok ∅))
  /\ (forall v tr,
        load_seen (World (Json v) tr) =
        (World (Json v) tr,
         Ok (match v with PList l => list_to_set (str <$> l) | _ => ∅ end))).
Proof.
  repeat split; intros; rewrite ?StoreFacts.load_seen_total; eauto.
Qed.

(** C7 as stated fails: the array [1, 2] is not a sequence of strings, and
    [load_seen] does not return the empty set for it. *)
Lemma load_seen_int_array_not_empty :
  ~ holds_strings (file world_int_array)
  /\ (load_seen world_int_array).2 = Ok (list_to_set ["1"; "2"])
  /\ (load_seen world_int_array).2 <> Ok ∅.
Proof.
  split; [|split].
  - intros [l H]. simpl in H. injection H as H. by destruct l as [|? [|? ?]].
  - by rewrite StoreFacts.load_seen_total.
  - rewrite StoreFacts.load_seen_total. simpl. intros H%StoreFacts.Ok_inj.
    assert ("1" ∈ (∅ : gset string)) as Hin by (rewrite <- H; set_solver).
    set_solver.
Qed.

(** C10. A stored JSON array is never treated as corrupt: [load_seen] returns
    the set of the [str] forms of its elements, so [1, 2] loads as the set of
    "1" and "2", and an array with an element never loads as the empty set.
    The empty-set fallback is for a missing or unreadable file, text that is
    not JSON, and JSON that is not an array. *)
Theorem load_seen_coerces_array :
  (forall l tr,
      load_seen (World (Json (PList l)) tr) =
      (World (Json (PList l)) tr, Ok (list_to_set (str <$> l))))
  /\ (forall v l tr, (load_seen (World (Json (PList (v :: l))) tr)).2 <> Ok ∅)
  /\ (load_seen (World (Json (PList [PInt 1; PInt 2])) [])).2 = Ok ({[ "1"; "2" ]})
  /\ (forall f tr,
        match f with
        | Json (PList _) => True
        | _ => (load_seen (World f tr)).2 = Ok ∅
        end).
Proof.
  split; [|split; [|split]].
  - intros. by rewrite StoreFacts.load_seen_total.
  - intros v l tr. rewrite StoreFacts.load_seen_total. simpl. intros H%StoreFacts.Ok_inj.
    assert (str v ∈ (∅ : gset string)) as Hin by (rewrite <- H; set_solver).
    set_solver.
  - rewrite StoreFacts.load_seen_total. simpl. f_equal; set_solver.
  - intros f tr. rewrite StoreFacts.load_seen_total. by destruct f as [| | |[]].
Qed.

(** ** The Dispatcher *)

Module RunFacts.

Lemma posts_of_app t1 t2 : posts_of (t1 ++ t2) = posts_of t1 ++ posts_of t2.
Proof. induction t1 as [|[]]; simpl; by rewrite ?IHt1. Qed.

Lemma writes_of_app t1 t2 : writes_of (t1 ++ t2) = writes_of t1 ++ writes_of t2.
Proof. induction t1 as [|[]]; simpl; by rewrite ?IHt1. Qed.

Lemma writes_of_posts ems : writes_of (EPost <$> ems) = [].
Proof. by induction ems. Qed.

Lemma posts_of_posts ems : posts_of (EPost <$> ems) = ems.
Proof. induction ems; simpl; by f_equal. Qed.

Lemma world_eta w : World (file w) (trace w) = w.
Proof. by destruct w. Qed.

(** What one call of [post_embed] does. *)
Lemma post_embed_run webhook job w :
  post_embed webhook job w =
  match build_embed job with
  | Ok em => (World (file w) (trace w ++ [EPost em]), webhook (length (posts_of (trace w))))
  | Raise e => (w, Raise e)
  end.
Proof. unfold post_embed, bind, lift, requests_post. by destruct (build_embed job). Qed.

Lemma slice_to_nil {A} n : slice_to n (@nil A) = [].
Proof. unfold slice_to. destruct (0 <=? n); by rewrite take_nil. Qed.

Lemma slice_to_zero {A} (l : list A) : slice_to 0 l = [].
Proof. done. Qed.

Lemma collect_new_jobs_nil jobs : collect_new_jobs jobs = Ok [] -> jobs = [].
Proof.
  destruct jobs as [|j jobs]; [done|]. simpl.
  destruct (stable_job_id j); [|done]. simpl.
  by destruct (collect_new_jobs jobs).
Qed.

(** [main] once the state is loaded, the feed has answered and the keys are
    built. *)
Lemma main_run MAX webhook disk data w seen new_jobs :
  (load_seen w).2 = Ok seen ->
  collect_new_jobs (list_or_empty data) = Ok new_jobs ->
  main MAX (FetchJson data) webhook disk w =
  match new_jobs with
  | [] => (World (file w) (trace w ++ [EPrint "No new analyst jobs found."]), Ok tt)
  | _ =>
      match post_loop webhook (slice_to MAX new_jobs) seen 0 w with
      | (w', Ok r) =>
          match disk with
          | Writes =>
              (World (Json (PList (PStr <$> sorted r.1)))
                     (trace w' ++ [EWrite (sorted r.1)] ++
                      [EPrint ("Posted " +:+ str_of_Z (Z.of_nat r.2) +:+ " new analyst job(s).")]),
               Ok tt)
          | OpenFails => (w', Raise OSError)
          | WriteFails => (World NotJson (trace w'), Raise OSError)
          end
      | (w', Raise e) => (w', Raise e)
      end
  end.
Proof.
  intros Hs Hc. unfold main, bind at 1. rewrite StoreFacts.load_seen_total in *.
  simpl in Hs. apply StoreFacts.Ok_inj in Hs. rewrite Hs.
  unfold bind at 1. unfold fetch_jobs, ret at 1.
  unfold bind at 1. unfold lift. rewrite Hc.
  destruct new_jobs as [|p nj]; [done|].
  unfold bind at 1.
  destruct (post_loop webhook (slice_to MAX (p :: nj)) seen 0 w) as [w' [r|e]]; [|done].
  unfold bind, save_seen, print, emit. destruct disk; [|done..].
  simpl. by rewrite <- app_assoc.
Qed.

End RunFacts.

Module LoopFacts.
Import RunFacts.

Lemma attempts_nil : attempts [] = [].
Proof. done. Qed.

Lemma attempts_cons j js :
  attempts (j :: js) =
  match build_embed j with Ok em => [em] | Raise _ => [] end ++ attempts js.
Proof. done. Qed.

(** The delivery loop stops at the first listing whose [post_embed] raises:
    the listings before it were posted, it was posted at most, and nothing
    after it. *)
Lemma post_loop_abort webhook jid job e post pre :
  forall w seen posted,
    (forall i p, pre !! i = Some p ->
       forall wk, length (posts_of (trace wk)) = (length (posts_of (trace w)) + i)%nat ->
                  (post_embed webhook p.2 wk).2 = Ok tt) ->
    (forall wk, length (posts_of (trace wk)) = (length (posts_of (trace w)) + length pre)%nat ->
                (post_embed webhook job wk).2 = Raise e) ->
    post_loop webhook (pre ++ (jid, job) :: post) seen posted w =
    (World (file w) (trace w ++ (EPost <$> attempts (pre.*2 ++ [job]))), Raise e).
Proof.
  induction pre as [|[kid p] pre IH]; intros w seen posted Hpre Hjob.
  - specialize (Hjob w). rewrite Nat.add_0_r in Hjob. specialize (Hjob eq_refl).
    cbn [app post_loop fmap list_fmap]. unfold bind. rewrite post_embed_run in *.
    rewrite attempts_cons, attempts_nil, app_nil_r.
    destruct (build_embed job) as [em|e']; cbn [snd fmap list_fmap] in *.
    + by rewrite Hjob.
    + rewrite app_nil_r, world_eta. by injection Hjob as ->.
  - pose proof (Hpre 0%nat (kid, p) eq_refl w) as H0.
    rewrite Nat.add_0_r in H0. specialize (H0 eq_refl).
    cbn [app post_loop]. unfold bind at 1. rewrite post_embed_run in *.
    rewrite fmap_cons, <- !app_comm_cons, attempts_cons. cbn [snd] in *.
    destruct (build_embed p) as [em|e']; simpl in H0; [|done].
    rewrite H0.
    rewrite IH.
    + cbn [file trace]. rewrite <- app_assoc. done.
    + intros i q Hq wk Hwk. apply (Hpre (S i) q Hq).
      rewrite Hwk. cbn [trace]. rewrite posts_of_app, length_app. simpl. lia.
    + intros wk Hwk. apply Hjob.
      rewrite Hwk. cbn [trace]. rewrite posts_of_app, length_app. simpl. lia.
Qed.

End LoopFacts.

(** C4. When [post_embed] raises for one selected listing, [main] stops
    there: the exception leaves [main] and the process ends with a status
    other than 0, the state file is as it was and [save_seen] has not run,
    the webhook has received the selected listings up to that one and none of
    those after it. *)
Theorem main_aborts_when_delivery_fails
    (MAX : Z) (webhook : nat -> result unit) (disk : disk_reply) (data : pyval) (w : world)
    (new_jobs pre post : list (string * pyval)) (jid : string) (job : pyval) (e : exn) :
  collect_new_jobs (list_or_empty data) = Ok new_jobs ->
  slice_to MAX new_jobs = pre ++ (jid, job) :: post ->
  (forall i p, pre !! i = Some p ->
     forall wk, length (posts_of (trace wk)) = (length (posts_of (trace w)) + i)%nat ->
                (post_embed webhook p.2 wk).2 = Ok tt) ->
  (forall wk, length (posts_of (trace wk)) = (length (posts_of (trace w)) + length pre)%nat ->
              (post_embed webhook job wk).2 = Raise e) ->
  (main MAX (FetchJson data) webhook disk w).2 = Raise e
  /\ exit_status (main MAX (FetchJson data) webhook disk w).2 <> 0
  /\ file (main MAX (FetchJson data) webhook disk w).1 = file w
  /\ writes_of (trace (main MAX (FetchJson data) webhook disk w).1) = writes_of (trace w)
  /\ trace (main MAX (FetchJson data) webhook disk w).1
     = trace w ++ (EPost <$> attempts (pre.*2 ++ [job])).
Proof.
  intros Hc Hsel Hpre Hjob.
  assert (exists seen, (load_seen w).2 = Ok seen) as [seen Hseen].
  { rewrite StoreFacts.load_seen_total. eauto. }
  rewrite (RunFacts.main_run MAX webhook disk data w seen new_jobs Hseen Hc).
  destruct new_jobs as [|nj0 nj].
  { rewrite RunFacts.slice_to_nil in Hsel. by destruct pre. }
  rewrite Hsel, (LoopFacts.post_loop_abort webhook jid job e post pre w seen 0%nat Hpre Hjob).
  cbn [fst snd file trace exit_status].
  rewrite RunFacts.writes_of_app, RunFacts.writes_of_posts, app_nil_r.
  repeat split; done.
Qed.

(** C4 at the spec's abort scenario: two selected listings, the webhook
    refuses the first POST. *)
Lemma main_aborts_when_delivery_fails_witness :
  (main 2 (FetchJson (PList [job_unseen; job_seen])) webhook_down Writes world_one_seen).2
    = Raise HTTPError
  /\ exit_status
       (main 2 (FetchJson (PList [job_unseen; job_seen])) webhook_down Writes world_one_seen).2 <> 0
  /\ file (main 2 (FetchJson (PList [job_unseen; job_seen])) webhook_down Writes world_one_seen).1
     = file world_one_seen
  /\ writes_of
       (trace (main 2 (FetchJson (PList [job_unseen; job_seen])) webhook_down Writes world_one_seen).1)
     = writes_of (trace world_one_seen)
  /\ trace (main 2 (FetchJson (PList [job_unseen; job_seen])) webhook_down Writes world_one_seen).1
     = trace world_one_seen ++ (EPost <$> attempts [job_unseen]).
Proof.
  apply (main_aborts_when_delivery_fails 2 webhook_down Writes
           (PList [job_unseen; job_seen]) world_one_seen
           [(key_unseen, job_unseen); (key_seen, job_seen)]
           [] [(key_seen, job_seen)] key_unseen job_unseen HTTPError).
  - reflexivity.
  - reflexivity.
  - intros i p Hp. destruct i; discriminate Hp.
  - intros wk _. rewrite RunFacts.post_embed_run. reflexivity.
Defined.

(** C3, as the code has it. With nothing fetched (an empty array, or a body
    that is not an array) [main] prints its message and returns before
    [save_seen]: no error, no delivery, and the state file is left as it
    was, not written.  With a maximum of zero and a feed of listings that
    are all objects, nothing is delivered and [save_seen] is called with the
    loaded Seen-Set: where the state file can be written the set is written,
    so that loading it again gives the same set; where it cannot, the
    OSError of [save_seen] ends the run. *)
Theorem main_nothing_to_post
    (MAX : Z) (webhook : nat -> result unit) (disk : disk_reply) (data : pyval) (w : world)
    (seen : gset string) :
  (load_seen w).2 = Ok seen ->
  (list_or_empty data = [] ->
   main MAX (FetchJson data) webhook disk w =
   (World (file w) (trace w ++ [EPrint "No new analyst jobs found."]), Ok tt))
  /\ (forall new_jobs,
        list_or_empty data <> [] ->
        collect_new_jobs (list_or_empty data) = Ok new_jobs ->
        (main 0 (FetchJson data) webhook Writes w =
         (World (Json (PList (PStr <$> sorted seen)))
                (trace w ++ [EWrite (sorted seen); EPrint "Posted 0 new analyst job(s)."]),
          Ok tt)
         /\ (load_seen (main 0 (FetchJson data) webhook Writes w).1).2 = Ok seen)
        /\ main 0 (FetchJson data) webhook OpenFails w = (w, Raise OSError)
        /\ main 0 (FetchJson data) webhook WriteFails w
           = (World NotJson (trace w), Raise OSError)).
Proof.
  intros Hseen. split.
  - intros Hnil.
    rewrite (RunFacts.main_run MAX webhook disk data w seen [] Hseen); [done|].
    by rewrite Hnil.
  - intros new_jobs Hne Hc.
    rewrite !(RunFacts.main_run 0 webhook _ data w seen new_jobs Hseen Hc).
    destruct new_jobs as [|p nj].
    { by apply RunFacts.collect_new_jobs_nil in Hc. }
    rewrite RunFacts.slice_to_zero. cbn [post_loop ret fst snd].
    split; [|done]. split; [done|].
    rewrite StoreFacts.load_seen_total. cbn [fst snd file].
    by rewrite StoreFacts.str_PStr, StoreFacts.list_to_set_sorted.
Qed.

(** C3 at an empty feed, and at a maximum of zero with one listing. *)
Lemma main_nothing_to_post_witness :
  main 1 (FetchJson (PList [])) webhook_up Writes world_fresh =
  (World Missing [EPrint "No new analyst jobs found."], Ok tt)
  /\ main 0 (FetchJson (PList [job_unseen])) webhook_up Writes world_one_seen =
     (World (Json (PList [PStr key_seen]))
            [EWrite [key_seen]; EPrint "Posted 0 new analyst job(s)."], Ok tt)
  /\ main 0 (FetchJson (PList [job_unseen])) webhook_up OpenFails world_one_seen =
     (world_one_seen, Raise OSError).
Proof.
  split.
  - apply (proj1 (main_nothing_to_post 1 webhook_up Writes (PList []) world_fresh ∅ eq_refl)).
    reflexivity.
  - assert (list_or_empty (PList [job_unseen]) <> []) as Hne by discriminate.
    destruct (proj2 (main_nothing_to_post 0 webhook_up Writes (PList [job_unseen])
                       world_one_seen (list_to_set [key_seen]) eq_refl)
                    [(key_unseen, job_unseen)] Hne eq_refl) as [[H _] [Ho _]].
    split; [exact H | exact Ho].
Defined.

(** C3 as stated fails: with an empty feed and no state file, [main] returns
    normally without a delivery, and [save_seen] has not run: nothing was
    written and there is still no state file holding the Seen-Set. *)
Lemma main_empty_feed_does_not_save :
  main 1 (FetchJson (PList [])) webhook_up Writes world_fresh =
  (World Missing [EPrint "No new analyst jobs found."], Ok tt)
  /\ (load_seen world_fresh).2 = Ok ∅
  /\ writes_of (trace (main 1 (FetchJson (PList [])) webhook_up Writes world_fresh).1) = []
  /\ file (main 1 (FetchJson (PList [])) webhook_up Writes world_fresh).1
     <> Json (PList (PStr <$> sorted ∅)).
Proof. repeat split; done. Qed.

(** C1, the code at a failing input. The state file records [job_seen] as
    delivered and the feed lists it first; [main] never looks its key up in
    the loaded set and posts it again, while the unseen listing is left
    out. *)
Theorem main_posts_listing_already_seen :
  (load_seen world_one_seen).2 = Ok {[ key_seen ]}
  /\ stable_job_id job_seen = Ok key_seen
  /\ is_analyst_role "Business Analyst" = true
  /\ main 1 (FetchJson (PList [job_seen; job_unseen; job_other])) webhook_up Writes world_one_seen =
     (World (Json (PList [PStr key_seen]))
            [EPost embed_seen; EWrite [key_seen]; EPrint "Posted 1 new analyst job(s)."],
      Ok tt).
Proof.
  split; [|by vm_compute].
  rewrite StoreFacts.load_seen_total. simpl. f_equal; set_solver.
Qed.

(** C2, the code at a failing input. The only listing of the feed has a
    title the Classifier rejects; [main] takes every fetched listing as a
    candidate, posts it and records its key. *)
Theorem main_posts_rejected_title :
  dict_get "job_title" [ ("employer_name", PStr "Gamma"); ("job_title", PStr "Software Engineer");
                         ("job_apply_link", PStr "https://gamma.example/jobs/3") ]
    = Some (PStr "Software Engineer")
  /\ is_analyst_role "Software Engineer" = false
  /\ main 1 (FetchJson (PList [job_other])) webhook_up Writes world_fresh =
     (World (Json (PList [PStr key_other]))
            [EPost embed_other; EWrite [key_other]; EPrint "Posted 1 new analyst job(s)."],
      Ok tt).
Proof. by vm_compute. Qed.

(** ** More on the text primitives *)

Module StageFacts.
Import Text TextFacts.

Lemma length_lstrip s : (String.length (lstrip s) <= String.length s)%nat.
Proof. induction s as [|c s IH]; simpl; [done|]. destruct (isspace c); simpl; lia. Qed.

Lemma length_rstrip s : (String.length (rstrip s) <= String.length s)%nat.
Proof.
  induction s as [|c s IH]; simpl; [done|].
  destruct (rstrip s); [destruct (isspace c)|]; simpl in *; lia.
Qed.

Lemma length_sub_ws_go b s : (String.length (sub_ws_go b s) <= String.length s)%nat.
Proof.
  revert b. induction s as [|c s IH]; intros b; simpl; [done|].
  destruct (isspace c); [destruct b|]; simpl.
  - specialize (IH true). lia.
  - specialize (IH true). lia.
  - specialize (IH false). lia.
Qed.

Lemma lstrip_same_length s : String.length (lstrip s) = String.length s -> lstrip s = s.
Proof.
  destruct s as [|c s]; simpl; [done|].
  destruct (isspace c); [|done]. pose proof (length_lstrip s). lia.
Qed.

Lemma rstrip_same_length s : String.length (rstrip s) = String.length s -> rstrip s = s.
Proof.
  induction s as [|c s IH]; simpl; [done|].
  pose proof (length_rstrip s) as Hl.
  destruct (rstrip s) as [|d r] eqn:Hr.
  - destruct (isspace c); simpl; [done|].
    intros H. destruct s; [done|]. simpl in H. lia.
  - simpl. intros H. f_equal. apply IH. simpl. lia.
Qed.

Lemma split_ws_rstrip s : split_ws (rstrip s) = split_ws s.
Proof.
  induction s as [|c s IH]; [done|].
  cbn [rstrip]. destruct (rstrip s) as [|d r] eqn:Hr.
  - apply rstrip_empty_iff in Hr. cbn [split_ws]. rewrite Hr.
    destruct (isspace c) eqn:Hc; [done|]. cbn [split_ws]. by rewrite Hc.
  - assert (rstrip s <> EmptyString) as Hne by (by rewrite Hr).
    pose proof (rstrip_head s Hne) as Hh.
    assert (s <> EmptyString) as Hs by (intros ->; done).
    rewrite <- Hr in IH |- *. cbn [split_ws]. destruct (isspace c); [exact IH|].
    rewrite IH. f_equal.
    rewrite !starts_word_space by done. by rewrite Hh.
Qed.

Lemma starts_word_sub_ws_go s : starts_word (sub_ws_go false s) = starts_word s.
Proof. destruct s as [|c s]; simpl; [done|]. by destruct (isspace c) eqn:Hc; simpl; rewrite ?Hc. Qed.

Lemma split_ws_sub_ws_go b s : split_ws (sub_ws_go b s) = split_ws s.
Proof.
  revert b. induction s as [|c s IH]; intros b; [done|].
  cbn [sub_ws_go split_ws]. destruct (isspace c) eqn:Hc.
  - destruct b; [apply IH|]. cbn [split_ws]. change (isspace " ") with true. apply IH.
  - cbn [split_ws]. by rewrite Hc, starts_word_sub_ws_go, IH.
Qed.

Lemma split_ws_strip s : split_ws (strip s) = split_ws s.
Proof. unfold strip. by rewrite split_ws_rstrip, split_ws_lstrip. Qed.

Lemma norm_strip s : norm (Some (strip s)) = norm (Some s).
Proof. by rewrite !norm_words, split_ws_strip. Qed.

Lemma norm_sub_ws s : norm (Some (sub_ws s)) = norm (Some s).
Proof. rewrite !norm_words. unfold sub_ws. by rewrite split_ws_sub_ws_go. Qed.

Lemma norm_lower s : norm (Some (lower s)) = norm (Some s).
Proof. by rewrite !norm_words, split_ws_lower, <- lower_join_sp, lower_idem. Qed.

Lemma length_stages s : (String.length (sub_ws (strip s)) <= String.length s)%nat.
Proof.
  unfold sub_ws, strip.
  pose proof (length_sub_ws_go false (rstrip (lstrip s))).
  pose proof (length_rstrip (lstrip s)). pose proof (length_lstrip s). lia.
Qed.

(** The normal form is a fixed point of each stage. *)
Lemma norm_fixed s :
  strip (norm (Some s)) = norm (Some s)
  /\ sub_ws (norm (Some s)) = norm (Some s)
  /\ lower (norm (Some s)) = norm (Some s).
Proof.
  set (n := norm (Some s)).
  assert (lower n = n) as Hlow.
  { unfold n, norm. apply lower_idem. }
  assert (sub_ws (strip n) = n) as Hsub.
  { pose proof (norm_idem s) as H. fold n in H. unfold norm, or_empty in H.
    rewrite sub_ws_strip in *. unfold n at 2. rewrite norm_words.
    unfold n. rewrite norm_words, split_ws_lower, split_ws_join_sp by apply split_ws_words.
    by rewrite lower_join_sp. }
  assert (strip n = n) as Hstrip.
  { pose proof (length_sub_ws_go false (strip n)) as H1. fold (sub_ws (strip n)) in H1.
    rewrite Hsub in H1. unfold strip in *.
    pose proof (length_rstrip (lstrip n)). pose proof (length_lstrip n).
    assert (lstrip n = n) as Hl by (apply lstrip_same_length; lia).
    rewrite Hl in *. apply rstrip_same_length. lia. }
  split; [done|]. split; [|done]. by rewrite Hstrip in Hsub.
Qed.

Lemma split_ws_nil_iff s : split_ws s = [] <-> all_space s = true.
Proof.
  induction s as [|c s IH]; simpl; [done|].
  destruct (isspace c); simpl; [done|].
  split; [|done]. intros H. by apply push_char_ne in H.
Qed.

Lemma lower_empty s : lower s = EmptyString <-> s = EmptyString.
Proof. by destruct s. Qed.

Lemma join_sp_empty ws : Forall word ws -> join_sp ws = EmptyString -> ws = [].
Proof.
  intros Hws. destruct ws as [|w ws]; [done|].
  inversion Hws as [|? ? [Hne _] _]; subst.
  destruct ws as [|v ws]; [done|]. rewrite join_sp_cons. by destruct w.
Qed.

Lemma norm_empty_iff s : norm (Some s) = EmptyString <-> all_space s = true.
Proof.
  rewrite norm_words, lower_empty, <- split_ws_nil_iff. split.
  - apply join_sp_empty, split_ws_words.
  - by intros ->.
Qed.

End StageFacts.

(** X1. [norm] absorbs each of its stages (stripping, collapsing the runs
    of whitespace or lower-casing the argument first changes nothing), and
    its value is a fixed point of each stage: no whitespace at either end, no
    whitespace but single spaces, no capital letter. *)
Theorem norm_absorbs_stages (s : string) :
  (norm (Some (Text.strip s)) = norm (Some s)
   /\ norm (Some (Text.sub_ws s)) = norm (Some s)
   /\ norm (Some (Text.lower s)) = norm (Some s))
  /\ (Text.strip (norm (Some s)) = norm (Some s)
      /\ Text.sub_ws (norm (Some s)) = norm (Some s)
      /\ Text.lower (norm (Some s)) = norm (Some s)).
Proof.
  split; [|apply StageFacts.norm_fixed].
  split; [apply StageFacts.norm_strip|].
  split; [apply StageFacts.norm_sub_ws | apply StageFacts.norm_lower].
Qed.

(** X2. [norm] returns the empty string exactly when every character of
    its argument is whitespace (and for an absent argument); before the
    lower-casing, stripping the text and collapsing its runs of whitespace
    never lengthen it. *)
Theorem norm_empty_iff_blank (s : string) :
  (norm (Some s) = EmptyString <-> all_space s = true)
  /\ norm None = EmptyString
  /\ (String.length (Text.sub_ws (Text.strip s)) <= String.length s)%nat.
Proof.
  split; [apply StageFacts.norm_empty_iff|]. split; [done|].
  apply StageFacts.length_stages.
Qed.

(** ** More on the Classifier and the Identity Builder *)

Module KeyFacts.
Import TextFacts TitleFacts.

Lemma append_assoc (a b c : string) : (a +:+ b) +:+ c = a +:+ (b +:+ c).
Proof. induction a as [|x a IH]; [done|]. by rewrite !app_cons, IH. Qed.

Lemma occurs_in_trans a b c : Text.occurs_in a b -> Text.occurs_in b c -> Text.occurs_in a c.
Proof.
  intros (p1 & q1 & ->) (p2 & q2 & ->). exists (p2 +:+ p1), (q1 +:+ q2).
  by rewrite !append_assoc.
Qed.

Lemma is_analyst_role_norm t1 t2 :
  norm (Some t1) = norm (Some t2) -> is_analyst_role t1 = is_analyst_role t2.
Proof. unfold is_analyst_role. by intros ->. Qed.

Lemma excluded_rejected title k :
  In k EXCLUDE_TITLE_KEYWORDS -> Text.occurs_in k (norm (Some title)) ->
  is_analyst_role title = false.
Proof.
  intros Hk Hocc. unfold is_analyst_role.
  assert (existsb (fun k => Text.contains k (norm (Some title))) EXCLUDE_TITLE_KEYWORDS = true) as ->.
  { apply any_contains. eauto. }
  by destruct (negb _).
Qed.

(** A text without the separator character, followed by the separator,
    splits in one way only. *)
Lemma split_at_sep a b x y :
  has_char pipe a = false -> has_char pipe b = false ->
  a +:+ SEP +:+ x = b +:+ SEP +:+ y -> a = b /\ x = y.
Proof.
  revert b. induction a as [|c a IH]; intros [|c' b] Ha Hb H.
  - split; [done|]. by injection H.
  - exfalso. injection H as Hc _. simpl in Hb. unfold pipe in Hb.
    rewrite <- Hc in Hb. done.
  - exfalso. injection H as Hc _. simpl in Ha. unfold pipe in Ha.
    rewrite Hc in Ha. done.
  - rewrite !app_cons in H. injection H as Hc H. subst c'.
    simpl in Ha, Hb. destruct (ascii_dec c pipe); [done|].
    destruct (IH b Ha Hb H) as [-> ->]. done.
Qed.

Lemma stable_job_id_dict d :
  stable_job_id (PDict d) =
  Ok (norm (Some (field_text d "employer_name")) +:+ SEP +:+
      norm (Some (field_text d "job_title")) +:+ SEP +:+
      norm (Some (field_text d "job_city")) +:+ SEP +:+
      norm (Some (field_text d "job_state")) +:+ SEP +:+
      norm (Some (field_text d "job_apply_link")) +:+ SEP +:+
      norm (Some (field_text d "job_posted_at"))).
Proof. done. Qed.

Lemma stable_job_id_inj d1 d2 :
  pipe_free d1 -> pipe_free d2 ->
  stable_job_id (PDict d1) = stable_job_id (PDict d2) ->
  forall k, In k ID_FIELDS -> norm (Some (field_text d1 k)) = norm (Some (field_text d2 k)).
Proof.
  intros H1 H2. rewrite !stable_job_id_dict. intros H%StoreFacts.Ok_inj.
  apply split_at_sep in H as [E1 H]; [|apply H1|apply H2]; [|simpl; tauto..].
  apply split_at_sep in H as [E2 H]; [|apply H1|apply H2]; [|simpl; tauto..].
  apply split_at_sep in H as [E3 H]; [|apply H1|apply H2]; [|simpl; tauto..].
  apply split_at_sep in H as [E4 H]; [|apply H1|apply H2]; [|simpl; tauto..].
  apply split_at_sep in H as [E5 E6]; [|apply H1|apply H2]; [|simpl; tauto..].
  intros k Hk. simpl in Hk.
  destruct Hk as [<-|[<-|[<-|[<-|[<-|[<-|[]]]]]]]; done.
Qed.

End KeyFacts.

(** X3. The Classifier looks at the normalized title only: titles with the
    same words, letter case aside, get the same answer. *)
Theorem is_analyst_role_same_words (t1 t2 : string) :
  Text.same_words t1 t2 -> is_analyst_role t1 = is_analyst_role t2.
Proof. intros H. by apply KeyFacts.is_analyst_role_norm, TextFacts.same_words_norm. Qed.

(** X3 at a title in capitals with doubled spaces. *)
Lemma is_analyst_role_same_words_witness :
  is_analyst_role "  DATA   Analyst " = is_analyst_role "data analyst".
Proof. apply is_analyst_role_same_words. reflexivity. Defined.

(** X4. Exclusion is by substring, not by word: a title whose normalized
    form contains any text that itself contains an exclude keyword is
    rejected, whatever else it contains. *)
Theorem is_analyst_role_excludes_by_substring (title k text : string) :
  In k EXCLUDE_TITLE_KEYWORDS ->
  Text.occurs_in k text ->
  Text.occurs_in text (norm (Some title)) ->
  is_analyst_role title = false.
Proof.
  intros Hk H1 H2. apply (KeyFacts.excluded_rejected title k Hk).
  by apply (KeyFacts.occurs_in_trans k text).
Qed.

(** X4 at "International Data Analyst": "intern" occurs in "international". *)
Lemma is_analyst_role_excludes_by_substring_witness :
  is_analyst_role "International Data Analyst" = false.
Proof.
  apply (is_analyst_role_excludes_by_substring
           "International Data Analyst" "intern" "international").
  - simpl. tauto.
  - apply TitleFacts.contains_spec. reflexivity.
  - apply TitleFacts.contains_spec. reflexivity.
Defined.

(** X5. On listings none of whose normalized fields holds the character
    '|', the Identity Key determines the six normalized fields: equal keys
    come from equal fields only. *)
Theorem stable_job_id_injective_without_pipes (d1 d2 : list (string * pyval)) :
  pipe_free d1 -> pipe_free d2 ->
  stable_job_id (PDict d1) = stable_job_id (PDict d2) ->
  forall k, In k ID_FIELDS ->
            norm (Some (field_text d1 k)) = norm (Some (field_text d2 k)).
Proof. apply KeyFacts.stable_job_id_inj. Qed.

(** X5 at the two listings that differ in letter case and whitespace. *)
Lemma stable_job_id_injective_without_pipes_witness :
  norm (Some (field_text listing_shouting "employer_name"))
  = norm (Some (field_text listing_quiet "employer_name"))
  /\ norm (Some (field_text listing_shouting "job_posted_at"))
     = norm (Some (field_text listing_quiet "job_posted_at")).
Proof.
  assert (forall k, In k ID_FIELDS ->
            norm (Some (field_text listing_shouting k))
            = norm (Some (field_text listing_quiet k))) as H; [|split; apply H; simpl; tauto].
  apply (stable_job_id_injective_without_pipes listing_shouting listing_quiet).
  - intros k Hk. simpl in Hk.
    repeat (destruct Hk as [<-|Hk]; [vm_compute; reflexivity|]). destruct Hk.
  - intros k Hk. simpl in Hk.
    repeat (destruct Hk as [<-|Hk]; [vm_compute; reflexivity|]). destruct Hk.
  - vm_compute. reflexivity.
Defined.

(** The condition of X5 is needed: with the separator inside a field, two
    listings with different titles share a key. *)
Example stable_job_id_collides_with_pipes :
  stable_job_id (PDict listing_pipe_left) = stable_job_id (PDict listing_pipe_right)
  /\ norm (Some (field_text listing_pipe_left "job_title"))
     <> norm (Some (field_text listing_pipe_right "job_title")).
Proof. split; by vm_compute. Qed.

(** ** The Notifier *)

Module EmbedFacts.
Import TextFacts.

Lemma starts_space_false_lstrip t : Text.starts_space t = false -> Text.lstrip t = t.
Proof. destruct t as [|c t]; simpl; [done|]. by intros ->. Qed.

Lemma rstrip_cons_ne c s :
  Text.rstrip s <> EmptyString -> Text.rstrip (String c s) = String c (Text.rstrip s).
Proof. intros H. simpl. by destruct (Text.rstrip s). Qed.

Lemma rstrip_idem s : Text.rstrip (Text.rstrip s) = Text.rstrip s.
Proof.
  induction s as [|c s IH]; [done|]. cbn [Text.rstrip].
  destruct (Text.rstrip s) as [|d r] eqn:Hr.
  - destruct (Text.isspace c) eqn:Hc; [done|]. simpl. by rewrite Hc.
  - rewrite rstrip_cons_ne; rewrite IH; done.
Qed.

Lemma strip_head s : Text.starts_space (Text.strip s) = false.
Proof.
  unfold Text.strip. destruct (Text.rstrip (Text.lstrip s)) eqn:Hr; [done|].
  rewrite <- Hr, rstrip_head, lstrip_head; [done|]. by rewrite Hr.
Qed.

Lemma lstrip_strip s : Text.lstrip (Text.strip s) = Text.strip s.
Proof. apply starts_space_false_lstrip, strip_head. Qed.

Lemma rstrip_strip s : Text.rstrip (Text.strip s) = Text.strip s.
Proof. unfold Text.strip. apply rstrip_idem. Qed.

Lemma strip_idem s : Text.strip (Text.strip s) = Text.strip s.
Proof. unfold Text.strip at 1. by rewrite lstrip_strip, rstrip_strip. Qed.

Lemma strip_empty_iff s : Text.strip s = EmptyString <-> all_space s = true.
Proof.
  unfold Text.strip.
  by rewrite rstrip_empty_iff, split_ws_lstrip, StageFacts.split_ws_nil_iff.
Qed.

Lemma rstrip_app x y :
  Text.rstrip y <> EmptyString -> Text.rstrip (x +:+ y) = x +:+ Text.rstrip y.
Proof.
  intros Hy. induction x as [|c x IH]; [done|].
  rewrite !app_cons, rstrip_cons_ne; rewrite IH; [done|].
  destruct x; [done|]. by rewrite app_cons.
Qed.

Lemma nonempty_true s : nonempty s = true <-> s <> EmptyString.
Proof. by destruct s. Qed.

(** Joining two stripped, non-empty texts with ", " gives a stripped text. *)
Lemma strip_location a b :
  Text.strip (location_text (Text.strip a) (Text.strip b))
  = location_text (Text.strip a) (Text.strip b).
Proof.
  unfold location_text.
  destruct (nonempty (Text.strip a)) eqn:Ha, (nonempty (Text.strip b)) eqn:Hb;
    cbn [andb]; try apply strip_idem; [|done].
  apply nonempty_true in Ha, Hb.
  unfold Text.strip at 1.
  assert (Text.lstrip (Text.strip a +:+ ", " +:+ Text.strip b)
          = Text.strip a +:+ ", " +:+ Text.strip b) as ->.
  { apply starts_space_false_lstrip. pose proof (strip_head a) as Hh.
    destruct (Text.strip a); [done|]. by rewrite app_cons. }
  rewrite rstrip_app.
  - f_equal. rewrite (rstrip_app ", "); rewrite rstrip_strip; done.
  - rewrite (rstrip_app ", "); rewrite rstrip_strip; done.
Qed.

Lemma location_nonempty a b : location_text a b <> EmptyString.
Proof.
  unfold location_text. destruct a, b; cbn [nonempty andb]; try done.
Qed.

Lemma text_or_dict d k default :
  text_or (PDict d) k default =
  if unusable d k then Raise AttributeError
  else Ok (Text.strip (field_or d k default)).
Proof.
  unfold text_or, get, rbind, unusable, field_or.
  destruct (dict_get k d) as [[|[]|n|s|[]|[]]|]; simpl; try done.
  - by destruct (n =? 0).
  - by destruct s.
Qed.

Lemma format_location_dict d :
  format_location (PDict d) =
  if unusable d "job_city" || unusable d "job_state" then Raise AttributeError
  else Ok (location_text (Text.strip (field_or d "job_city" EmptyString))
                         (Text.strip (field_or d "job_state" EmptyString))).
Proof.
  unfold format_location. rewrite !text_or_dict.
  destruct (unusable d "job_city"), (unusable d "job_state"); cbn [rbind orb]; try done.
  unfold location_text.
  by destruct (nonempty _), (nonempty _).
Qed.

Lemma build_embed_dict d :
  build_embed (PDict d) =
  if existsb (unusable d) ID_FIELDS then Raise AttributeError else Ok (embed_of d).
Proof.
  unfold build_embed. rewrite format_location_dict, !text_or_dict. cbn [existsb ID_FIELDS].
  destruct (unusable d "employer_name"), (unusable d "job_title"),
    (unusable d "job_city"), (unusable d "job_state"),
    (unusable d "job_apply_link"), (unusable d "job_posted_at"); done.
Qed.

Lemma build_embed_not_dict job : is_dict job = false -> build_embed job = Raise AttributeError.
Proof. by destruct job. Qed.

Lemma all_usable d :
  existsb (unusable d) ID_FIELDS = false <-> forall k, In k ID_FIELDS -> unusable d k = false.
Proof.
  split.
  - intros H k Hk. destruct (unusable d k) eqn:E; [|done].
    assert (existsb (unusable d) ID_FIELDS = true) by (apply existsb_exists; eauto).
    congruence.
  - intros H. destruct (existsb (unusable d) ID_FIELDS) eqn:E; [|done].
    apply existsb_exists in E as (k & Hk & Hu). rewrite (H k Hk) in Hu. done.
Qed.

(** A default that is not blank is what makes a field empty only when the
    stored text is blank. *)
Lemma strip_field_or_empty d k default :
  all_space default = false ->
  Text.strip (field_or d k default) = EmptyString <-> blank_text d k.
Proof.
  intros Hd. rewrite strip_empty_iff. unfold field_or, blank_text. split.
  - destruct (dict_get k d) as [[| | |s| |]|]; try congruence.
    destruct s as [|c s]; cbn [nonempty]; [congruence|]. intros H. by exists (String c s).
  - intros (s & -> & Hne & Hs). by destruct s.
Qed.

End EmbedFacts.

(** X6. [post_embed] builds its embed only from a dict none of whose six
    fields holds a true value that is not a string (a number other than 0,
    [True], a list or dict that is not empty): any other listing makes it
    raise AttributeError, and nothing else.  [stable_job_id] is less
    strict: it returns a key for every dict. *)
Theorem build_embed_raises_iff (job : pyval) :
  (forall e, build_embed job = Raise e -> e = AttributeError)
  /\ ((exists em, build_embed job = Ok em) <->
      exists d, job = PDict d /\ forall k, In k ID_FIELDS -> unusable d k = false)
  /\ ((exists key, stable_job_id job = Ok key) <-> is_dict job = true).
Proof.
  destruct job as [| | | | |d];
    try (split; [by intros e [= <-]|split; split; try done; [by intros [? ?]|by intros (? & ? & ?)|by intros [? ?]]]).
  rewrite EmbedFacts.build_embed_dict. split; [|split].
  - intros e. destruct (existsb _ _); [by intros [= <-]|done].
  - destruct (existsb _ _) eqn:E; split.
    + by intros [? ?].
    + intros (d' & [= <-] & H). apply EmbedFacts.all_usable in H. congruence.
    + intros _. exists d. split; [done|]. by apply EmbedFacts.all_usable.
    + eauto.
  - split; [done|]. intros _. rewrite KeyFacts.stable_job_id_dict. eauto.
Qed.

(** X7. Whenever [post_embed] builds an embed, its URL and its location are
    not empty, and none of its five texts has whitespace at either end. *)
Theorem build_embed_fields_stripped (job : pyval) (em : embed) :
  build_embed job = Ok em ->
  em_url em <> EmptyString
  /\ em_location em <> EmptyString
  /\ Text.strip (em_employer em) = em_employer em
  /\ Text.strip (em_title em) = em_title em
  /\ Text.strip (em_url em) = em_url em
  /\ Text.strip (em_location em) = em_location em
  /\ Text.strip (em_age em) = em_age em.
Proof.
  destruct job as [| | | | |d]; try done.
  rewrite EmbedFacts.build_embed_dict. destruct (existsb _ _); [done|].
  intros [= <-]. unfold embed_of. cbn [em_url em_location em_employer em_title em_age].
  repeat split; try apply EmbedFacts.strip_idem.
  - destruct (nonempty _) eqn:E; [by apply EmbedFacts.nonempty_true|done].
  - apply EmbedFacts.location_nonempty.
  - destruct (nonempty _); [apply EmbedFacts.strip_idem|done].
  - apply EmbedFacts.strip_location.
Qed.

(** X7 at the unseen listing of the scenarios. *)
Lemma build_embed_fields_stripped_witness :
  em_url embed_unseen <> EmptyString
  /\ em_location embed_unseen <> EmptyString
  /\ Text.strip (em_employer embed_unseen) = em_employer embed_unseen
  /\ Text.strip (em_title embed_unseen) = em_title embed_unseen
  /\ Text.strip (em_url embed_unseen) = em_url embed_unseen
  /\ Text.strip (em_location embed_unseen) = em_location embed_unseen
  /\ Text.strip (em_age embed_unseen) = em_age embed_unseen.
Proof. apply (build_embed_fields_stripped job_unseen embed_unseen). reflexivity. Defined.

(** X8. The defaults "Unknown Company", "Analyst Role" and "N/A" stand in
    for a missing or false value only: the employer, the title or the age of
    the embed is empty exactly when the listing holds, under that key, a
    string that is not empty and is all whitespace. *)
Theorem build_embed_blank_fields (d : list (string * pyval)) (em : embed) :
  build_embed (PDict d) = Ok em ->
  (em_employer em = EmptyString <-> blank_text d "employer_name")
  /\ (em_title em = EmptyString <-> blank_text d "job_title")
  /\ (em_age em = EmptyString <-> blank_text d "job_posted_at").
Proof.
  rewrite EmbedFacts.build_embed_dict. destruct (existsb _ _); [done|].
  intros [= <-]. unfold embed_of. cbn [em_employer em_title em_age].
  repeat split; by apply EmbedFacts.strip_field_or_empty.
Qed.

(** X8 at a listing whose employer is three spaces. *)
Lemma build_embed_blank_fields_witness :
  (em_employer embed_blank_employer = EmptyString
   <-> blank_text listing_blank_employer "employer_name")
  /\ (em_title embed_blank_employer = EmptyString
      <-> blank_text listing_blank_employer "job_title")
  /\ (em_age embed_blank_employer = EmptyString
      <-> blank_text listing_blank_employer "job_posted_at").
Proof.
  apply (build_embed_blank_fields listing_blank_employer embed_blank_employer).
  reflexivity.
Defined.

(** ** More on the Dispatcher *)

Module MainFacts.
Import RunFacts LoopFacts.

Lemma length_slice_to {A} n (l : list A) : length (slice_to n l) = slice_len n (length l).
Proof. unfold slice_to, slice_len. destruct (0 <=? n); rewrite length_take; lia. Qed.

Lemma slice_to_fmap {A B} (f : A -> B) n (l : list A) :
  slice_to n (f <$> l) = f <$> slice_to n l.
Proof. unfold slice_to. rewrite length_fmap. destruct (0 <=? n); by rewrite fmap_take. Qed.

Lemma stable_job_id_not_dict j : is_dict j = false -> stable_job_id j = Raise AttributeError.
Proof. by destruct j. Qed.

Lemma stable_job_id_raises j e : stable_job_id j = Raise e -> e = AttributeError.
Proof. destruct j; by intros [= <-]. Qed.

Lemma collect_new_jobs_raises l e : collect_new_jobs l = Raise e -> e = AttributeError.
Proof.
  induction l as [|j l IH]; [done|]. simpl.
  destruct (stable_job_id j) as [k|e'] eqn:Hj; simpl.
  - destruct (collect_new_jobs l); simpl; [done|]. intros [= <-]. by apply IH.
  - intros [= <-]. by apply stable_job_id_raises in Hj.
Qed.

Lemma collect_new_jobs_not_dict l :
  Exists (fun j => is_dict j = false) l -> collect_new_jobs l = Raise AttributeError.
Proof.
  induction 1 as [j l Hj|j l _ IH]; simpl.
  - by rewrite stable_job_id_not_dict.
  - destruct (stable_job_id j) as [k|e] eqn:Hj; simpl.
    + by rewrite IH.
    + by apply stable_job_id_raises in Hj as ->.
Qed.

Lemma collect_new_jobs_snd l nj : collect_new_jobs l = Ok nj -> nj.*2 = l.
Proof.
  revert nj. induction l as [|j l IH]; intros nj; simpl; [by intros [= <-]|].
  destruct (stable_job_id j); simpl; [|done].
  destruct (collect_new_jobs l); simpl; [|done].
  intros [= <-]. simpl. f_equal. by apply IH.
Qed.

Lemma attempts_app l1 l2 : attempts (l1 ++ l2) = attempts l1 ++ attempts l2.
Proof. unfold attempts. apply flat_map_app. Qed.

(** Every way the delivery loop can end: it has posted some of the selected
    listings and nothing else has happened; when it returns, it has posted
    them all and added their keys. *)
Lemma post_loop_shape webhook sel :
  forall seen posted w,
    exists ems,
      (length ems <= length sel)%nat
      /\ match post_loop webhook sel seen posted w with
         | (w', Ok r) =>
             w' = World (file w) (trace w ++ (EPost <$> ems))
             /\ r.1 = list_to_set sel.*1 ∪ seen
             /\ r.2 = (posted + length sel)%nat
             /\ ems = attempts sel.*2
             /\ length ems = length sel
         | (w', Raise e) => w' = World (file w) (trace w ++ (EPost <$> ems))
         end.
Proof.
  induction sel as [|[jid job] sel IH]; intros seen posted w.
  - exists []. split; [done|]. simpl. rewrite app_nil_r, world_eta.
    split; [done|]. split; [by rewrite (left_id_L ∅ (∪))|].
    split; [lia|done].
  - cbn [post_loop]. unfold bind at 1. rewrite post_embed_run.
    rewrite !fmap_cons. cbn [fst snd]. rewrite attempts_cons.
    destruct (build_embed job) as [em|e].
    + destruct (webhook (length (posts_of (trace w)))) as [[]|e].
      * destruct (IH ({[jid]} ∪ seen) (S posted)
                     (World (file w) (trace w ++ [EPost em]))) as (ems & Hlen & H).
        exists (em :: ems). split; [simpl; lia|].
        destruct (post_loop webhook sel ({[jid]} ∪ seen) (S posted)
                    (World (file w) (trace w ++ [EPost em]))) as [w' [r|e]].
        -- destruct H as (-> & Hr1 & Hr2 & -> & Hl). cbn [file trace].
           rewrite <- app_assoc.
           split; [done|]. split.
           { rewrite Hr1, list_to_set_cons, (assoc_L (∪)). f_equal. apply (comm_L (∪)). }
           split; [simpl; lia|]. split; [done|simpl; lia].
        -- rewrite H. cbn [file trace]. by rewrite <- app_assoc.
      * exists [em]. split; [simpl; lia|done].
    + exists []. split; [simpl; lia|]. simpl. by rewrite app_nil_r, world_eta.
Qed.

Lemma main_fetch_raises MAX e webhook disk w : main MAX (FetchRaises e) webhook disk w = (w, Raise e).
Proof. unfold main, bind at 1. by rewrite StoreFacts.load_seen_total. Qed.

Lemma main_collect_raises MAX data webhook disk w e :
  collect_new_jobs (list_or_empty data) = Raise e ->
  main MAX (FetchJson data) webhook disk w = (w, Raise e).
Proof.
  intros Hc. unfold main, bind at 1. rewrite StoreFacts.load_seen_total.
  unfold bind at 1. unfold fetch_jobs, ret at 1. unfold bind at 1. unfold lift. by rewrite Hc.
Qed.

Lemma loaded w : exists seen, (load_seen w).2 = Ok seen.
Proof. rewrite StoreFacts.load_seen_total. eauto. Qed.


(** Every way a run can end. *)
Lemma main_outcome MAX feed webhook disk w seen :
  (load_seen w).2 = Ok seen ->
  exists ems,
    (length ems <= slice_len MAX (length (fetched feed)))%nat
    /\ ((exists e, main MAX feed webhook disk w
                  = (World (file w) (trace w ++ (EPost <$> ems)), Raise e))
        \/ (ems = []
            /\ main MAX feed webhook disk w
               = (World (file w) (trace w ++ [EPrint "No new analyst jobs found."]), Ok tt))
        \/ (disk = Writes
            /\ exists keys,
               main MAX feed webhook disk w
               = (World (Json (PList (PStr <$> sorted (list_to_set keys ∪ seen))))
                        (trace w ++ (EPost <$> ems)
                         ++ [EWrite (sorted (list_to_set keys ∪ seen));
                             EPrint (posted_line (length ems))]),
                  Ok tt))
        \/ (disk = WriteFails
            /\ main MAX feed webhook disk w
               = (World NotJson (trace w ++ (EPost <$> ems)), Raise OSError))).
Proof.
  intros Hseen. destruct feed as [e|data].
  { exists []. split; [simpl; lia|]. left. exists e.
    rewrite main_fetch_raises. simpl. by rewrite app_nil_r, world_eta. }
  cbn [fetched]. destruct (collect_new_jobs (list_or_empty data)) as [nj|e] eqn:Hc.
  2:{ exists []. split; [simpl; lia|]. left. exists e.
      rewrite (main_collect_raises _ _ _ _ _ _ Hc). simpl. by rewrite app_nil_r, world_eta. }
  rewrite (main_run MAX webhook disk data w seen nj Hseen Hc).
  destruct nj as [|p nj].
  { exists []. split; [simpl; lia|]. right. left. done. }
  destruct (post_loop_shape webhook (slice_to MAX (p :: nj)) seen 0%nat w) as (ems & Hlen & H).
  exists ems. split.
  { rewrite length_slice_to in Hlen. apply collect_new_jobs_snd in Hc.
    rewrite <- Hc, length_fmap. done. }
  destruct (post_loop webhook (slice_to MAX (p :: nj)) seen 0%nat w) as [w' [r|e]].
  - destruct H as (-> & Hr1 & Hr2 & _ & Hl). cbn [file trace]. destruct disk.
    + right. right. left. split; [done|].
      exists (slice_to MAX (p :: nj)).*1.
      rewrite Hr1, Hr2, Hl, <- app_assoc. done.
    + left. by exists OSError.
    + right. right. right. done.
  - left. exists e. by rewrite H.
Qed.

End MainFacts.
Module ReturnFacts.
Import RunFacts LoopFacts MainFacts.

(** When every selected listing is delivered, the loop returns. *)
Lemma post_loop_returns webhook sel :
  forall seen posted w,
    (forall i p, sel !! i = Some p ->
       forall wk, length (posts_of (trace wk)) = (length (posts_of (trace w)) + i)%nat ->
                  (post_embed webhook p.2 wk).2 = Ok tt) ->
    exists r, (post_loop webhook sel seen posted w).2 = Ok r.
Proof.
  induction sel as [|[jid job] sel IH]; intros seen posted w Hall; [by eexists|].
  pose proof (Hall 0%nat (jid, job) eq_refl w) as H0.
  rewrite Nat.add_0_r in H0. specialize (H0 eq_refl).
  cbn [post_loop]. unfold bind at 1. rewrite post_embed_run in *. cbn [snd] in H0.
  destruct (build_embed job) as [em|e]; [|done]. cbn [snd] in H0. rewrite H0.
  apply IH. intros i q Hq wk Hwk. apply (Hall (S i) q Hq).
  rewrite Hwk. cbn [trace]. rewrite posts_of_app, length_app. simpl. lia.
Qed.

Lemma posts_of_run t ems rest :
  posts_of rest = [] -> posts_of (t ++ (EPost <$> ems) ++ rest) = posts_of t ++ ems.
Proof. intros H. by rewrite !posts_of_app, posts_of_posts, H, app_nil_r. Qed.

End ReturnFacts.

(** X9. When the feed cannot be fetched, [main] raises the exception of the
    fetch and the world is exactly as it was, whatever the state file
    holds: nothing is posted, printed or written. *)
Theorem main_fetch_failure
    (MAX : Z) (e : exn) (webhook : nat -> result unit) (disk : disk_reply) (w : world) :
  main MAX (FetchRaises e) webhook disk w = (w, Raise e)
  /\ exit_status (main MAX (FetchRaises e) webhook disk w).2 = 1.
Proof. by rewrite MainFacts.main_fetch_raises. Qed.

(** X10. One fetched listing that is not a JSON object, anywhere in the
    feed, makes [main] raise AttributeError before anything is delivered:
    the keys of all listings are built before the first POST, so the world
    is exactly as it was, also when the listing lies beyond the maximum. *)
Theorem main_rejects_listing_not_dict
    (MAX : Z) (data : pyval) (webhook : nat -> result unit) (disk : disk_reply) (w : world) :
  Exists (fun j => is_dict j = false) (list_or_empty data) ->
  main MAX (FetchJson data) webhook disk w = (w, Raise AttributeError).
Proof.
  intros H. by apply MainFacts.main_collect_raises, MainFacts.collect_new_jobs_not_dict.
Qed.

(** X10 at a maximum of 1 and a feed whose second listing is a string. *)
Lemma main_rejects_listing_not_dict_witness :
  main 1 (FetchJson feed_with_string) webhook_up Writes world_fresh
  = (world_fresh, Raise AttributeError).
Proof.
  apply (main_rejects_listing_not_dict 1 feed_with_string webhook_up Writes world_fresh).
  apply Exists_cons_tl, Exists_cons_hd. reflexivity.
Defined.



(** X12. When every listing is an object, every selected listing is
    delivered and the state file can be written, [main] posts the first
    listings of the feed, in feed order, as many as the slice
    [new_jobs[:MAX]] holds; it then writes the loaded set with their keys
    added, prints their number and returns; loading the state file again
    gives that set. *)
Theorem main_delivers_first_listings
    (MAX : Z) (data : pyval) (webhook : nat -> result unit) (w : world)
    (seen : gset string) (new_jobs : list (string * pyval)) :
  (load_seen w).2 = Ok seen ->
  collect_new_jobs (list_or_empty data) = Ok new_jobs ->
  list_or_empty data <> [] ->
  (forall i p, slice_to MAX new_jobs !! i = Some p ->
     forall wk, length (posts_of (trace wk)) = (length (posts_of (trace w)) + i)%nat ->
                (post_embed webhook p.2 wk).2 = Ok tt) ->
  main MAX (FetchJson data) webhook Writes w =
  (World (Json (PList (PStr <$> sorted (list_to_set (slice_to MAX new_jobs).*1 ∪ seen))))
         (trace w ++ (EPost <$> attempts (slice_to MAX (list_or_empty data)))
          ++ [EWrite (sorted (list_to_set (slice_to MAX new_jobs).*1 ∪ seen));
              EPrint (posted_line (slice_len MAX (length (list_or_empty data))))]),
   Ok tt)
  /\ (load_seen (main MAX (FetchJson data) webhook Writes w).1).2
     = Ok (list_to_set (slice_to MAX new_jobs).*1 ∪ seen).
Proof.
  intros Hseen Hc Hne Hall.
  assert (main MAX (FetchJson data) webhook Writes w =
    (World (Json (PList (PStr <$> sorted (list_to_set (slice_to MAX new_jobs).*1 ∪ seen))))
       (trace w ++ (EPost <$> attempts (slice_to MAX (list_or_empty data)))
        ++ [EWrite (sorted (list_to_set (slice_to MAX new_jobs).*1 ∪ seen));
            EPrint (posted_line (slice_len MAX (length (list_or_empty data))))]),
     Ok tt)) as Hmain.
  { rewrite (RunFacts.main_run MAX webhook Writes data w seen new_jobs Hseen Hc).
    pose proof (MainFacts.collect_new_jobs_snd _ _ Hc) as Hsnd.
    destruct new_jobs as [|p nj]; [by rewrite <- Hsnd in Hne|].
    destruct (ReturnFacts.post_loop_returns webhook _ seen 0%nat w Hall) as [r Hr].
    destruct (MainFacts.post_loop_shape webhook (slice_to MAX (p :: nj)) seen 0%nat w)
      as (ems & _ & H).
    destruct (post_loop webhook (slice_to MAX (p :: nj)) seen 0%nat w) as [w' [r'|e]];
      [|done].
    destruct H as (-> & Hr1 & Hr2 & -> & Hl). cbn [file trace].
    rewrite Hr1, Hr2, <- app_assoc, <- (MainFacts.slice_to_fmap snd), Hsnd.
    rewrite MainFacts.length_slice_to, <- Hsnd, length_fmap. done. }
  split; [done|].
  rewrite Hmain, StoreFacts.load_seen_total. cbn [fst snd file].
  by rewrite StoreFacts.str_PStr, StoreFacts.list_to_set_sorted.
Qed.

(** X12 at a maximum of 2, three listings and a state file with one key. *)
Lemma main_delivers_first_listings_witness :
  main 2 (FetchJson (PList [job_unseen; job_seen; job_other])) webhook_up Writes
       world_one_seen =
  (World (Json (PList [PStr key_unseen; PStr key_seen]))
         [EPost embed_unseen; EPost embed_seen; EWrite [key_unseen; key_seen];
          EPrint "Posted 2 new analyst job(s)."],
   Ok tt).
Proof.
  assert (list_or_empty (PList [job_unseen; job_seen; job_other]) <> []) as Hne
    by discriminate.
  destruct (main_delivers_first_listings 2 (PList [job_unseen; job_seen; job_other])
              webhook_up world_one_seen (list_to_set [key_seen])
              [(key_unseen, job_unseen); (key_seen, job_seen); (key_other, job_other)]
              eq_refl eq_refl Hne) as [H _].
  - intros i p Hp wk _. rewrite RunFacts.post_embed_run.
    destruct i as [|[|i]]; simpl in Hp; [injection Hp as <-; reflexivity..|discriminate].
  - rewrite H. vm_compute. reflexivity.
Defined.

(** X13. Whatever happens, one run sends no more POSTs than the slice
    [new_jobs[:MAX]] has listings: at most [MAX] and at most the length of
    the feed when [MAX] is not negative, and the length of the feed less
    [-MAX] when it is negative. *)
Theorem main_rate_limit
    (MAX : Z) (feed : fetch_reply) (webhook : nat -> result unit) (disk : disk_reply)
    (w : world) :
  (length (posts_of (trace (main MAX feed webhook disk w).1))
   <= length (posts_of (trace w)) + slice_len MAX (length (fetched feed)))%nat.
Proof.
  destruct (MainFacts.loaded w) as [seen Hseen].
  destruct (MainFacts.main_outcome MAX feed webhook disk w seen Hseen)
    as (ems & Hlen & [[e' ->]|[[-> ->]|[[_ [keys ->]]|[_ ->]]]]); cbn [fst trace].
  - rewrite RunFacts.posts_of_app, RunFacts.posts_of_posts, length_app. lia.
  - rewrite RunFacts.posts_of_app, length_app. simpl. lia.
  - rewrite ReturnFacts.posts_of_run by done. rewrite length_app. lia.
  - rewrite RunFacts.posts_of_app, RunFacts.posts_of_posts, length_app. lia.
Qed.


(** X15. With the webhook URL unset, empty or all whitespace, the script
    prints its diagnostic and exits with status 1 before anything else: the
    maximum is not parsed, the state file is not read, nothing is fetched
    or posted. *)
Theorem script_without_webhook
    (py_int : string -> option Z) (env_webhook env_max : option string)
    (feed : fetch_reply) (webhook : nat -> result unit) (disk : disk_reply) (w : world) :
  all_space (from_option id EmptyString env_webhook) = true ->
  script py_int env_webhook env_max feed webhook disk w =
  (World (file w) (trace w ++ [EPrint "Missing DISCORD_WEBHOOK_URL env var."]), 1).
Proof.
  intros H. apply EmbedFacts.strip_empty_iff in H. unfold script. by rewrite H.
Qed.

(** X15 at a URL of two spaces and a maximum that is no number. *)
Lemma script_without_webhook_witness :
  script (fun _ => None) (Some "  ") (Some "many")
         (FetchJson (PList [job_unseen])) webhook_up Writes world_fresh =
  (World Missing [EPrint "Missing DISCORD_WEBHOOK_URL env var."], 1).
Proof.
  apply (script_without_webhook (fun _ => None) (Some "  ") (Some "many")
           (FetchJson (PList [job_unseen])) webhook_up Writes world_fresh).
  reflexivity.
Defined.

Module IgnoreFacts.
Import RunFacts LoopFacts MainFacts.

(** The delivery loop does the same POSTs and ends the same way whatever
    the set of seen keys and the state file are. *)
Lemma post_loop_indep webhook sel :
  forall s1 s2 posted f1 f2 t,
    trace (post_loop webhook sel s1 posted (World f1 t)).1
    = trace (post_loop webhook sel s2 posted (World f2 t)).1
    /\ match (post_loop webhook sel s1 posted (World f1 t)).2,
             (post_loop webhook sel s2 posted (World f2 t)).2 with
       | Ok a, Ok b => a.2 = b.2
       | Raise e1, Raise e2 => e1 = e2
       | _, _ => False
       end.
Proof.
  induction sel as [|[jid job] sel IH]; intros s1 s2 posted f1 f2 t; [done|].
  cbn [post_loop]. unfold bind. rewrite !post_embed_run. cbn [trace file].
  destruct (build_embed job) as [em|e]; [|done].
  destruct (webhook (length (posts_of t))) as [[]|e]; [|done].
  apply IH.
Qed.

Lemma main_indep MAX feed webhook f1 f2 t :
  (forall d1 d2,
      posts_of (trace (main MAX feed webhook d1 (World f1 t)).1)
      = posts_of (trace (main MAX feed webhook d2 (World f2 t)).1))
  /\ (forall d,
        (main MAX feed webhook d (World f1 t)).2 = (main MAX feed webhook d (World f2 t)).2).
Proof.
  destruct feed as [e|data]; [by split; intros; rewrite !main_fetch_raises|].
  destruct (collect_new_jobs (list_or_empty data)) as [nj|e] eqn:Hc.
  2:{ by split; intros; rewrite !(main_collect_raises _ _ _ _ _ _ Hc). }
  destruct (loaded (World f1 t)) as [s1 H1]. destruct (loaded (World f2 t)) as [s2 H2].
  destruct nj as [|p nj].
  { split; intros;
      rewrite (main_run MAX webhook _ data _ s1 [] H1 Hc),
              (main_run MAX webhook _ data _ s2 [] H2 Hc); done. }
  destruct (post_loop_indep webhook (slice_to MAX (p :: nj)) s1 s2 0%nat f1 f2 t) as [Ht Hr].
  split; intros;
    rewrite (main_run MAX webhook _ data _ s1 (p :: nj) H1 Hc),
            (main_run MAX webhook _ data _ s2 (p :: nj) H2 Hc);
    destruct (post_loop webhook (slice_to MAX (p :: nj)) s1 0%nat (World f1 t)) as [w1 [r1|e1]],
             (post_loop webhook (slice_to MAX (p :: nj)) s2 0%nat (World f2 t)) as [w2 [r2|e2]];
    cbn [fst snd trace] in *; try done.
  - destruct d1, d2; cbn [fst trace]; rewrite ?posts_of_app; simpl;
      rewrite ?app_nil_r; by rewrite Ht.
  - by rewrite Ht.
  - by destruct d.
  - by rewrite Hr.
Qed.

End IgnoreFacts.

(** X16. [main] never consults the state file when it chooses what to
    post: whatever the state file holds and whether or not it can be
    written, the same run sends the same POSTs in the same order; and from
    two worlds that differ in what the state file holds only, with the same
    answer of the file system to the write, the run ends the same way. *)
Theorem main_ignores_state_file
    (MAX : Z) (feed : fetch_reply) (webhook : nat -> result unit)
    (f1 f2 : state_file) (t : list event) :
  (forall d1 d2 : disk_reply,
      posts_of (trace (main MAX feed webhook d1 (World f1 t)).1)
      = posts_of (trace (main MAX feed webhook d2 (World f2 t)).1))
  /\ (forall d : disk_reply,
        (main MAX feed webhook d (World f1 t)).2 = (main MAX feed webhook d (World f2 t)).2).
Proof. apply IgnoreFacts.main_indep. Qed.
